(** * powermolecli: the command-line driver of powermole

    A shallow embedding of [powermolecli/powermolecli.py] and the
    properties of its control flow.

    The driver is glue code: it parses the command line, loads a
    configuration, constructs the collaborators of powermolelib, and then
    blocks in a mode-specific loop.  The embedding keeps the driver's own
    control flow (branches, loops, [try]/[except], [with] scopes, local
    variables that may be unbound) and records every call that crosses the
    boundary to a collaborator as an event of a trace.  What a collaborator
    answers is read from an environment. *)

From Stdlib Require Import String Ascii List ZArith NArith Bool Arith Lia.
Import ListNotations.
Open Scope string_scope.
Open Scope list_scope.

(** ** Python values *)

(** A [dict] with string keys, in insertion order. *)
Definition dict (V : Type) := list (string * V).

Fixpoint dict_get {V : Type} (d : dict V) (k : string) : option V :=
  match d with
  | [] => None
  | (k', v) :: d' => if String.eqb k' k then Some v else dict_get d' k
  end.

Fixpoint dict_set {V : Type} (d : dict V) (k : string) (v : V) : dict V :=
  match d with
  | [] => [(k, v)]
  | (k', v') :: d' =>
      if String.eqb k' k then (k, v) :: d' else (k', v') :: dict_set d' k v
  end.

(** [x in l] for a list of strings. *)
Definition str_in (x : string) (l : list string) : bool :=
  existsb (String.eqb x) l.

(** [str.upper()] on ASCII text. *)
Definition upper_ascii (c : ascii) : ascii :=
  let n := nat_of_ascii c in
  if (97 <=? n)%nat && (n <=? 122)%nat then ascii_of_nat (n - 32) else c.

Fixpoint upper (s : string) : string :=
  match s with
  | EmptyString => EmptyString
  | String c s' => String (upper_ascii c) (upper s')
  end.

(** The exceptions that can travel through the driver.  [ExternalError]
    stands for any other exception a collaborator raises. *)
Inductive exn : Type :=
| SystemExit (code : Z)
| KeyboardInterrupt
| EOFError
| InvalidConfigurationFile
| SetupFailed (msg : string)
| UnboundLocalError (name : string)
| AttributeError (attr : string)
| KeyError (key : string)
| UnicodeDecodeError
| ExternalError (name : string).

(** How a computation ends: it returns, it raises, or the bound on the
    number of loop iterations that the model was given is used up while the
    program is still running. *)
Inductive outcome (A : Type) : Type :=
| Ret (a : A)
| Raise (e : exn)
| OutOfFuel.
Arguments Ret {A} a.
Arguments Raise {A} e.
Arguments OutOfFuel {A}.

(** ** argparse

    [get_arguments] relies on [argparse.ArgumentParser] of the Python
    standard library.  The module below follows [argparse.py] (CPython
    3.11) for parsers that hold optional arguments only, with the actions
    [store] (one argument) and [help] (no argument): [_parse_optional],
    [_get_option_tuples], [consume_optional], [_get_values], [_check_value]
    and [parse_args].  [parser.error] ends the process with status 2 and
    [parser.exit] with status 0; what they print is not recorded.  Text is
    ASCII: [\d] of the negative-number pattern is a digit 0-9. *)
Module Argparse.

(** A value stored in the namespace. *)
Inductive pyval : Type :=
| PyStr (s : string)
| PyList (l : list string).

Inductive action_class : Type := StoreAction | HelpAction.

Record Action : Type := {
  option_strings : list string;
  dest : option string;          (* None: SUPPRESS *)
  default : option pyval;        (* None: SUPPRESS *)
  choices : option (list string);
  action : action_class
}.

(** [parser._actions], in registration order. *)
Definition ArgumentParser := list Action.
Definition Namespace := dict pyval.

Definition help_action : Action :=
  {| option_strings := ["-h"; "--help"]; dest := None; default := None;
     choices := None; action := HelpAction |}.

(** [argparse.ArgumentParser(description=...)]: [add_help] is on. *)
Definition new_parser (description : string) : ArgumentParser :=
  [help_action].

(** [parser.add_argument(long, short, dest=..., action='store',
    default=..., choices=...)]. *)
Definition add_argument (p : ArgumentParser) (long short dest_ : string)
    (default_ : string) (choices_ : option (list string)) : ArgumentParser :=
  p ++ [{| option_strings := [long; short]; dest := Some dest_;
           default := Some (PyStr default_); choices := choices_;
           action := StoreAction |}].

(** [parser._option_string_actions]. *)
Definition option_string_actions (p : ArgumentParser) : dict Action :=
  flat_map (fun a => map (fun o => (o, a)) (option_strings a)) p.

(** [arg_string.split('=', 1)] when ['=' in arg_string]. *)
Fixpoint split_eq (s : string) : option (string * string) :=
  match s with
  | EmptyString => None
  | String c s' =>
      if Ascii.eqb c "="%char then Some (EmptyString, s')
      else match split_eq s' with
           | Some (a, b) => Some (String c a, b)
           | None => None
           end
  end.

Fixpoint contains_char (c : ascii) (s : string) : bool :=
  match s with
  | EmptyString => false
  | String c' s' => Ascii.eqb c c' || contains_char c s'
  end.

Definition is_digit (c : ascii) : bool :=
  let n := nat_of_ascii c in (48 <=? n)%nat && (n <=? 57)%nat.

Fixpoint all_digits (s : string) : bool :=
  match s with
  | EmptyString => true
  | String c s' => is_digit c && all_digits s'
  end.

Definition digits1 (s : string) : bool :=
  negb (String.eqb s EmptyString) && all_digits s.

Fixpoint drop_digits (s : string) : string :=
  match s with
  | EmptyString => EmptyString
  | String c s' => if is_digit c then drop_digits s' else s
  end.

(** [$] also matches just before a newline that ends the string. *)
Fixpoint chomp (s : string) : string :=
  match s with
  | EmptyString => EmptyString
  | String c EmptyString =>
      if Ascii.eqb c "010"%char then EmptyString else s
  | String c s' => String c (chomp s')
  end.

(** [_negative_number_matcher]: [^-\d+$|^-\d*\.\d+$]. *)
Definition negative_number_like (s : string) : bool :=
  match chomp s with
  | String "-" r =>
      digits1 r ||
      match drop_digits r with
      | String "." f => digits1 f
      | _ => false
      end
  | _ => false
  end.

Definition has_negative_number_optionals (osa : dict Action) : bool :=
  existsb (fun oa => negative_number_like (fst oa)) osa.

(** The option tuple [(action, option_string, explicit_arg)]. *)
Definition option_tuple : Type := (option Action * string * option string).

Definition is_prefix_char (c : ascii) : bool := Ascii.eqb c "-"%char.

(** [_get_option_tuples], for an argument of at least two characters:
    an argument that starts with two prefix characters may abbreviate
    a long option; one that starts with a single prefix character may
    be a short option with its argument attached.  The last [else] of
    the source ("shouldn't ever get here") needs a first character
    that is no prefix character, which [_parse_optional] has excluded. *)
Definition get_option_tuples (osa : dict Action) (arg_string : string)
  : list option_tuple :=
  match arg_string with
  | String c0 (String c1 rest) =>
      if is_prefix_char c0 && is_prefix_char c1 then
        let '(option_prefix, explicit_arg) :=
          match split_eq arg_string with
          | Some (a, b) => (a, Some b)
          | None => (arg_string, None)
          end in
        flat_map (fun oa =>
                    if String.prefix option_prefix (fst oa)
                    then [(Some (snd oa), fst oa, explicit_arg)] else [])
                 osa
      else if is_prefix_char c0 && negb (is_prefix_char c1) then
        let short_option_prefix := String c0 (String c1 EmptyString) in
        let short_explicit_arg := rest in
        flat_map (fun oa =>
                    if String.eqb (fst oa) short_option_prefix
                    then [(Some (snd oa), fst oa, Some short_explicit_arg)]
                    else if String.prefix arg_string (fst oa)
                    then [(Some (snd oa), fst oa, None)] else [])
                 osa
      else []
  | _ => []
  end.

(** [_parse_optional]: [Ret None] is a positional, [Ret (Some t)] an
    option, and an ambiguous abbreviation is a [parser.error]. *)
Definition parse_optional (osa : dict Action) (arg_string : string)
  : outcome (option option_tuple) :=
  match arg_string with
  | EmptyString => Ret None
  | String c0 tail =>
      if negb (is_prefix_char c0) then Ret None
      else match dict_get osa arg_string with
      | Some a => Ret (Some (Some a, arg_string, None))
      | None =>
          match tail with
          | EmptyString => Ret None
          | _ =>
              let by_eq :=
                match split_eq arg_string with
                | Some (option_string, explicit_arg) =>
                    match dict_get osa option_string with
                    | Some a => Some (Some a, option_string, Some explicit_arg)
                    | None => None
                    end
                | None => None
                end in
              match by_eq with
              | Some t => Ret (Some t)
              | None =>
                  match get_option_tuples osa arg_string with
                  | _ :: _ :: _ => Raise (SystemExit 2)
                  | [t] => Ret (Some t)
                  | [] =>
                      if negative_number_like arg_string
                         && negb (has_negative_number_optionals osa)
                      then Ret None
                      else if contains_char " "%char arg_string then Ret None
                      else Ret (Some (None, arg_string, None))
                  end
              end
          end
      end
  end.

(** One letter of [arg_strings_pattern], with what it stands for. *)
Inductive arg_class : Type :=
| ClsA
| ClsDashDash
| ClsO (t : option_tuple).

(** After [--] every string is an ['A']. *)
Definition classify_rest (args : list string) : list (string * arg_class) :=
  map (fun s => (s, ClsA)) args.

Fixpoint classify (osa : dict Action) (args : list string)
  : outcome (list (string * arg_class)) :=
  match args with
  | [] => Ret []
  | s :: args' =>
      if String.eqb s "--" then Ret ((s, ClsDashDash) :: classify_rest args')
      else match parse_optional osa s with
           | Ret t =>
               match classify osa args' with
               | Ret l =>
                   Ret ((s, match t with Some t => ClsO t | None => ClsA end) :: l)
               | Raise e => Raise e
               | OutOfFuel => OutOfFuel
               end
           | Raise e => Raise e
           | OutOfFuel => OutOfFuel
           end
  end.

(** [arg_strings.remove('--')]: the first occurrence only. *)
Fixpoint remove_first_dashdash (l : list string) : list string :=
  match l with
  | [] => []
  | s :: l' => if String.eqb s "--" then l' else s :: remove_first_dashdash l'
  end.

(** [_get_values] and [_check_value] for [nargs=None] and [nargs=0]. *)
Definition get_values (a : Action) (arg_strings : list string) : outcome pyval :=
  let arg_strings := remove_first_dashdash arg_strings in
  match action a, arg_strings with
  | StoreAction, [arg_string] =>
      match choices a with
      | Some cs =>
          if str_in arg_string cs then Ret (PyStr arg_string)
          else Raise (SystemExit 2)
      | None => Ret (PyStr arg_string)
      end
  | _, _ =>
      match choices a with
      | Some cs =>
          if forallb (fun v => str_in v cs) arg_strings
          then Ret (PyList arg_strings) else Raise (SystemExit 2)
      | None => Ret (PyList arg_strings)
      end
  end.

(** [take_action]: [_StoreAction.__call__] sets the attribute,
    [_HelpAction.__call__] prints the help and exits with status 0. *)
Definition take_action (ns : Namespace) (a : Action) (arg_strings : list string)
  : outcome Namespace :=
  match get_values a arg_strings with
  | Ret v =>
      match action a with
      | StoreAction =>
          match dest a with
          | Some d => Ret (dict_set ns d v)
          | None => Ret ns
          end
      | HelpAction => Raise (SystemExit 0)
      end
  | Raise e => Raise e
  | OutOfFuel => OutOfFuel
  end.

Fixpoint take_actions (ns : Namespace) (tuples : list (Action * list string))
  : outcome Namespace :=
  match tuples with
  | [] => Ret ns
  | (a, arg_strings) :: tuples' =>
      match take_action ns a arg_strings with
      | Ret ns' => take_actions ns' tuples'
      | Raise e => Raise e
      | OutOfFuel => OutOfFuel
      end
  end.

(** [match_argument(action, selected_patterns)] on the strings that
    follow the option: [next] is the following string when it is an
    ['A'].  The result is the argument list and whether that string was
    consumed. *)
Definition match_following (a : Action) (next : option string)
  : outcome (list string * bool) :=
  match action a with
  | HelpAction => Ret ([], false)
  | StoreAction =>
      match next with
      | Some v => Ret ([v], true)
      | None => Raise (SystemExit 2)
      end
  end.

(** [option_string[1] in chars]. *)
Definition second_is_prefix_char (option_string : string) : bool :=
  match option_string with
  | String _ (String c _) => is_prefix_char c
  | _ => false
  end.

(** The [while True] loop of [consume_optional] once an explicit
    argument is present: a [store] takes it; a single-dash [help]
    followed by more letters tries them as further short options. *)
Fixpoint consume_explicit (osa : dict Action) (a : Action)
    (option_string explicit_arg : string) (next : option string)
    {struct explicit_arg}
  : outcome (list (Action * list string) * bool) :=
  match action a with
  | StoreAction => Ret ([(a, [explicit_arg])], false)
  | HelpAction =>
      match explicit_arg with
      | EmptyString => Raise (SystemExit 2)
      | String c rest =>
          if second_is_prefix_char option_string then Raise (SystemExit 2)
          else
          let option_string' := String "-" (String c EmptyString) in
          match dict_get osa option_string' with
          | None => Raise (SystemExit 2)
          | Some a' =>
              match rest with
              | EmptyString =>
                  match match_following a' next with
                  | Ret (args, took) => Ret ([(a, []); (a', args)], took)
                  | Raise e => Raise e
                  | OutOfFuel => OutOfFuel
                  end
              | _ =>
                  match consume_explicit osa a' option_string' rest next with
                  | Ret (tuples, took) => Ret ((a, []) :: tuples, took)
                  | Raise e => Raise e
                  | OutOfFuel => OutOfFuel
                  end
              end
          end
      end
  end.

Definition next_argument (rest : list (string * arg_class)) : option string :=
  match rest with
  | (v, ClsA) :: _ => Some v
  | _ => None
  end.

(** The main loop of [_parse_known_args] for a parser without
    positionals: strings that are not options, and options that the
    parser does not know, are collected in [extras]. *)
Fixpoint consume (osa : dict Action) (toks : list (string * arg_class))
    (ns : Namespace) (extras : list string)
  : outcome (Namespace * list string) :=
  match toks with
  | [] => Ret (ns, extras)
  | (s, ClsA) :: rest | (s, ClsDashDash) :: rest
  | (s, ClsO (None, _, _)) :: rest =>
      consume osa rest ns (extras ++ [s])
  | (s, ClsO (Some a, option_string, explicit_arg)) :: rest =>
      let next := next_argument rest in
      let tuples :=
        match explicit_arg with
        | Some e => consume_explicit osa a option_string e next
        | None =>
            match match_following a next with
            | Ret (args, took) => Ret ([(a, args)], took)
            | Raise e => Raise e
            | OutOfFuel => OutOfFuel
            end
        end in
      match tuples with
      | Ret (tuples, took) =>
          match take_actions ns tuples with
          | Ret ns' =>
              match rest with
              | _ :: rest' =>
                  if took then consume osa rest' ns' extras
                  else consume osa rest ns' extras
              | [] => Ret (ns', extras)
              end
          | Raise e => Raise e
          | OutOfFuel => OutOfFuel
          end
      | Raise e => Raise e
      | OutOfFuel => OutOfFuel
      end
  end.

(** The namespace starts from the defaults of the actions. *)
Fixpoint defaults (p : ArgumentParser) (ns : Namespace) : Namespace :=
  match p with
  | [] => ns
  | a :: p' =>
      match dest a, default a with
      | Some d, Some v =>
          match dict_get ns d with
          | None => defaults p' (dict_set ns d v)
          | Some _ => defaults p' ns
          end
      | _, _ => defaults p' ns
      end
  end.

(** [parser.parse_args(args)]. *)
Definition parse_args (p : ArgumentParser) (args : list string)
  : outcome Namespace :=
  let osa := option_string_actions p in
  match classify osa args with
  | Ret toks =>
      match consume osa toks (defaults p []) [] with
      | Ret (ns, []) => Ret ns
      | Ret (_, _ :: _) => Raise (SystemExit 2)
      | Raise e => Raise e
      | OutOfFuel => OutOfFuel
      end
  | Raise e => Raise e
  | OutOfFuel => OutOfFuel
  end.

End Argparse.

(** ** Text and bytes

    A Python [str] is a sequence of code points and [bytes] a sequence of
    bytes.  Text that the driver only compares, formats into a log record
    or hands on (mode names, paths, option strings) is kept as [string]. *)
Definition str := list N.

Definition ascii_str (s : string) : str :=
  map N_of_ascii (list_ascii_of_string s).

Definition continuation (b : N) : bool := (128 <=? b)%N && (b <=? 191)%N.
Definition low6 (b : N) : N := N.land b 63.

(** [bytes.decode("utf-8")], strict: [None] is [UnicodeDecodeError].
    Overlong forms, surrogates and code points above U+10FFFF are
    rejected. *)
Fixpoint utf8_decode (bs : list Byte.byte) : option str :=
  match bs with
  | [] => Some []
  | b0 :: r0 =>
      let n0 := Byte.to_N b0 in
      if (n0 <? 128)%N then option_map (cons n0) (utf8_decode r0)
      else if (194 <=? n0)%N && (n0 <=? 223)%N then
        match r0 with
        | b1 :: r1 =>
            let n1 := Byte.to_N b1 in
            if continuation n1
            then option_map
                   (cons (N.lor (N.shiftl (N.land n0 31) 6) (low6 n1)))
                   (utf8_decode r1)
            else None
        | _ => None
        end
      else if (224 <=? n0)%N && (n0 <=? 239)%N then
        match r0 with
        | b1 :: b2 :: r2 =>
            let n1 := Byte.to_N b1 in
            let n2 := Byte.to_N b2 in
            let lo := if (n0 =? 224)%N then 160%N else 128%N in
            let hi := if (n0 =? 237)%N then 159%N else 191%N in
            if (lo <=? n1)%N && (n1 <=? hi)%N && continuation n2
            then option_map
                   (cons (N.lor (N.shiftl (N.land n0 15) 12)
                            (N.lor (N.shiftl (low6 n1) 6) (low6 n2))))
                   (utf8_decode r2)
            else None
        | _ => None
        end
      else if (240 <=? n0)%N && (n0 <=? 244)%N then
        match r0 with
        | b1 :: b2 :: b3 :: r3 =>
            let n1 := Byte.to_N b1 in
            let n2 := Byte.to_N b2 in
            let n3 := Byte.to_N b3 in
            let lo := if (n0 =? 240)%N then 144%N else 128%N in
            let hi := if (n0 =? 244)%N then 143%N else 191%N in
            if (lo <=? n1)%N && (n1 <=? hi)%N && continuation n2 && continuation n3
            then option_map
                   (cons (N.lor (N.shiftl (N.land n0 7) 18)
                            (N.lor (N.shiftl (low6 n1) 12)
                               (N.lor (N.shiftl (low6 n2) 6) (low6 n3)))))
                   (utf8_decode r3)
            else None
        | _ => None
        end
      else None
  end.

(** [s.split(sep)] for a separator of one code point: never empty. *)
Fixpoint split_on (sep : N) (s : str) : list str :=
  match s with
  | [] => [[]]
  | c :: s' =>
      if (c =? sep)%N then [] :: split_on sep s'
      else match split_on sep s' with
           | l :: ls => (c :: l) :: ls
           | [] => [[c]]
           end
  end.

Definition newline : N := 10.

(** ** Module constants of the driver *)

Definition LOCAL_PATH_SSH_CFG : string := "/tmp/ssh_cfg_minitor".
Definition LOCAL_PORT_AGENT : Z := 33191.
Definition LOCAL_PORT_PROXY : Z := 8080.
Definition LOCAL_PORT_HEARTBEAT : Z := 33193.
Definition LOCAL_PORT_TRANSFER : Z := 33194.
Definition LOCAL_PORT_COMMAND : Z := 33195.
Definition REMOTE_PORT_AGENT : Z := 44191.
Definition REMOTE_PORT_PROXY : Z := 44192.
Definition REMOTE_PORT_HEARTBEAT : Z := 44193.
Definition REMOTE_PORT_TRANSFER : Z := 44194.
Definition REMOTE_PORT_COMMAND : Z := 44195.
Definition MACHINE_DEPLOY_PATH : string := "/tmp/".
Definition DEBUG : bool := false.

Definition GROUP_PORTS : dict Z :=
  [("local_port_agent", LOCAL_PORT_AGENT);
   ("local_port_proxy", LOCAL_PORT_PROXY);
   ("local_port_heartbeat", LOCAL_PORT_HEARTBEAT);
   ("local_port_transfer", LOCAL_PORT_TRANSFER);
   ("local_port_command", LOCAL_PORT_COMMAND);
   ("remote_port_agent", REMOTE_PORT_AGENT);
   ("remote_port_proxy", REMOTE_PORT_PROXY);
   ("remote_port_heartbeat", REMOTE_PORT_HEARTBEAT);
   ("remote_port_transfer", REMOTE_PORT_TRANSFER);
   ("remote_port_command", REMOTE_PORT_COMMAND)].

(** ** The collaborators of powermolelib, as the driver sees them *)

(** The attributes of [Configuration] that the driver reads. *)
Record Configuration : Type := {
  mode : string;
  gateways : list (dict string);
  destination : dict string;
  all_hosts : list string;
  forwarders_string : string;
  forwarders_ports : string;
  files : list (dict string);
  application : option (dict string)
}.

(** An object is the record of the arguments it was constructed from. *)
Record TransferAgent : Type := {
  ta_path : string;
  ta_all_hosts : list string
}.

Record Tunnel : Type := {
  tn_path : string;
  tn_mode : string;
  tn_all_hosts : list string;
  tn_group_ports : dict Z;
  tn_forwarders : option string
}.

Record BootstrapAgent : Type := {
  ba_tunnel : Tunnel;
  ba_group_ports : dict Z;
  ba_deploy_path : string
}.

Inductive Instructor : Type :=
| ForInstructor (group_ports : dict Z)
| TorInstructor (group_ports : dict Z) (ip_address_i ip_address_e : string)
| FileInstructor (group_ports : dict Z)
| InteractiveInstructor (group_ports : dict Z).

Inductive log_level : Type := INFO | WARNING | ERROR.
Inductive log_arg : Type := ArgStr (s : string) | ArgInt (z : Z).

(** Every call that leaves the driver.  [EvLog] is the call of a method
    of [LOGGER]; whether the record is shown depends on the level that
    [coloredlogs.install] was given. *)
Inductive event : Type :=
| EvColoredlogsInstall (fmt level : string)
| EvLog (lvl : log_level) (msg : string) (args : list log_arg)
| EvStateManagerEnter
| EvStateManagerExit
| EvWriteSshConfigFile (path : string) (gws : list (dict string))
    (dst : dict string)
| EvNewTransferAgent (t : TransferAgent)
| EvNewTunnel (t : Tunnel)
| EvNewBootstrapAgent (b : BootstrapAgent)
| EvNewInstructor (i : Instructor)
| EvSetupLink (ta : TransferAgent) (tn : Tunnel) (ba : BootstrapAgent)
    (ins : Instructor) (debug : bool)
| EvPeriodicallyPurgeBuffer
| EvHeartbeatEnter (port : Z)
| EvHeartbeatExit
| EvInput (prompt : string)
| EvExecCommand (command : str)
| EvPrint (line : str)
| EvTransfer (metadata_files : list (dict string))
| EvStartApplication (binary_name binary_location : string)
| EvSleep (seconds : Z)
| EvProcessTerminate
| EvTunnelDebug.

(** What the outside answers.  [load_configuration] is the constructor
    [Configuration(path)], which raises [InvalidConfigurationFile] on a
    malformed file; [setup_link_result] is [Some msg] when [setup_link]
    raises [SetupFailed(msg)]; [exec_command_response] is what the agent
    sends back for a command. *)
Record Env : Type := {
  argv : list string;
  load_configuration : Argparse.pyval -> outcome Configuration;
  setup_link_result : option string;
  exec_command_response : str -> list Byte.byte
}.

(** Standard input is a sequence of lines and interrupts; reading past
    its end is [EOFError].  Interrupts are delivered where the driver
    blocks: at the prompt of [input] and during a [sleep]. *)
Inductive stdin_event : Type :=
| Line (s : str)
| CtrlC.

(** [interrupt_after = Some n]: the next interrupt of a [sleep] arrives
    after [n] more sleeps have completed; [None]: no interrupt is pending. *)
Record State : Type := {
  trace : list event;
  stdin : list stdin_event;
  interrupt_after : option nat
}.

Definition initial_state (input : list stdin_event) (intr : option nat) : State :=
  {| trace := []; stdin := input; interrupt_after := intr |}.

(** ** The monad of the driver: state and exceptions *)

Definition M (A : Type) : Type := State -> outcome A * State.

Definition ret {A : Type} (a : A) : M A := fun s => (Ret a, s).
Definition raise {A : Type} (e : exn) : M A := fun s => (Raise e, s).

Definition bind {A B : Type} (m : M A) (k : A -> M B) : M B :=
  fun s =>
    match m s with
    | (Ret a, s') => k a s'
    | (Raise e, s') => (Raise e, s')
    | (OutOfFuel, s') => (OutOfFuel, s')
    end.

Declare Scope py_scope.
Delimit Scope py_scope with py.
Notation "x <- m ;; k" := (bind m (fun x => k))
  (at level 61, m at next level, right associativity) : py_scope.
Notation "m ;; k" := (bind m (fun _ => k))
  (at level 61, right associativity) : py_scope.
Open Scope py_scope.

Definition lift {A : Type} (o : outcome A) : M A := fun s => (o, s).

Definition emit (e : event) : M unit :=
  fun s => (Ret tt, {| trace := trace s ++ [e]; stdin := stdin s;
                       interrupt_after := interrupt_after s |}).

(** An expression statement: the value is computed and dropped. *)
Definition discard {A : Type} (_ : A) : M unit := ret tt.

(** Reading a local variable that no branch has assigned. *)
Definition local {A : Type} (name : string) (v : option A) : M A :=
  match v with
  | Some a => ret a
  | None => raise (UnboundLocalError name)
  end.

(** [d[key]]. *)
Definition subscript {V : Type} (d : dict V) (key : string) : M V :=
  match dict_get d key with
  | Some v => ret v
  | None => raise (KeyError key)
  end.

(** [try: body except ...: handler]: [handler e] is [None] when no
    clause matches [e]. *)
Definition try_except {A : Type} (body : M A) (handler : exn -> option (M A)) : M A :=
  fun s =>
    match body s with
    | (Raise e, s') =>
        match handler e with
        | Some h => h s'
        | None => (Raise e, s')
        end
    | r => r
    end.

(** [with cm: body] for a context manager whose [__exit__] does not
    swallow exceptions: the exit runs once, whether the body returns or
    raises.  A body that is still running has not left the scope. *)
Definition with_ {A : Type} (enter exit : event) (body : M A) : M A :=
  fun s =>
    match (emit enter ;; body) s with
    | (OutOfFuel, s') => (OutOfFuel, s')
    | (r, s') => (r, snd (emit exit s'))
    end.

(** [while True: body], unfolded at most [fuel] times. *)
Fixpoint while_true (fuel : nat) (body : M unit) : M unit :=
  match fuel with
  | O => lift OutOfFuel
  | S fuel' => body ;; while_true fuel' body
  end.

(** [for x in l: body x]. *)
Fixpoint for_each {A : Type} (l : list A) (body : A -> M unit) : M unit :=
  match l with
  | [] => ret tt
  | x :: l' => body x ;; for_each l' body
  end.

(** [input(prompt)]. *)
Definition input (prompt : string) : M str :=
  emit (EvInput prompt) ;;
  fun s =>
    match stdin s with
    | [] => (Raise EOFError, s)
    | Line l :: rest =>
        (Ret l, {| trace := trace s; stdin := rest;
                   interrupt_after := interrupt_after s |})
    | CtrlC :: rest =>
        (Raise KeyboardInterrupt,
         {| trace := trace s; stdin := rest;
            interrupt_after := interrupt_after s |})
    end.

(** [time.sleep(seconds)]. *)
Definition sleep (seconds : Z) : M unit :=
  fun s =>
    match interrupt_after s with
    | Some O =>
        (Raise KeyboardInterrupt,
         {| trace := trace s; stdin := stdin s; interrupt_after := None |})
    | Some (S n) =>
        (Ret tt, {| trace := trace s ++ [EvSleep seconds]; stdin := stdin s;
                    interrupt_after := Some n |})
    | None => emit (EvSleep seconds) s
    end.

Definition LOGGER_info (msg : string) (args : list log_arg) : M unit :=
  emit (EvLog INFO msg args).
Definition LOGGER_warning (msg : string) (args : list log_arg) : M unit :=
  emit (EvLog WARNING msg args).
Definition LOGGER_error (msg : string) (args : list log_arg) : M unit :=
  emit (EvLog ERROR msg args).

(** [print('>    %s' % line)]. *)
Definition print (line : str) : M unit := emit (EvPrint line).

(** [args.name] on the namespace. *)
Definition getattr (args : Argparse.Namespace) (name : string) : M Argparse.pyval :=
  match dict_get args name with
  | Some v => ret v
  | None => raise (AttributeError name)
  end.

(** [value.upper()]: a list has no such method. *)
Definition str_upper (v : Argparse.pyval) : M string :=
  match v with
  | Argparse.PyStr s => ret (upper s)
  | Argparse.PyList _ => raise (AttributeError "upper")
  end.

(** ** The driver *)

Definition log_level_choices : list string :=
  ["debug"; "info"; "warning"; "error"; "critical"].

(** [get_arguments()]; [args] is [sys.argv[1:]]. *)
Definition get_arguments (args : list string) : outcome Argparse.Namespace :=
  let parser :=
    Argparse.new_parser
      "powermole - anonymizing internet traffic using private hosts (cli)" in
  let parser :=
    Argparse.add_argument parser "--config-file" "-c" "config_file" EmptyString None in
  let parser :=
    Argparse.add_argument parser "--log-level" "-L" "log_level" "info"
      (Some log_level_choices) in
  Argparse.parse_args parser args.

(** [Configuration(config_file_path)]. *)
Definition new_Configuration (E : Env) (config_file_path : Argparse.pyval)
  : M Configuration :=
  lift (load_configuration E config_file_path).

(** [parse_config_file(config_file_path)]; [None] is Python's [None]. *)
Definition parse_config_file (E : Env) (config_file_path : Argparse.pyval)
  : M (option Configuration) :=
  loaded <- try_except
              (configuration <- new_Configuration E config_file_path ;;
               ret (Some configuration))
              (fun e => match e with
                        | InvalidConfigurationFile => Some (ret None)
                        | _ => None
                        end) ;;
  match loaded with
  | None => ret None
  | Some configuration =>
      (if mode configuration =? "FILE" then
         LOGGER_info "mode FILE enabled" []
       else if mode configuration =? "INTERACTIVE" then
         LOGGER_info "mode INTERACTIVE enabled" []
       else if mode configuration =? "FOR" then
         LOGGER_info "mode FOR enabled" []
       else if mode configuration =? "TOR" then
         LOGGER_info "mode TOR enabled" []
       else ret tt) ;;
      ret (Some configuration)
  end.

(** The local variables of [main] that only the mode dispatch assigns. *)
Record Locals : Type := {
  tunnel : option Tunnel;
  bootstrapagent : option BootstrapAgent;
  assistant : option Instructor
}.

Definition new_Tunnel (config : Configuration) (forwarders : option string)
  : M Tunnel :=
  let t := {| tn_path := LOCAL_PATH_SSH_CFG; tn_mode := mode config;
              tn_all_hosts := all_hosts config; tn_group_ports := GROUP_PORTS;
              tn_forwarders := forwarders |} in
  emit (EvNewTunnel t) ;; ret t.

Definition new_BootstrapAgent (t : Tunnel) : M BootstrapAgent :=
  let b := {| ba_tunnel := t; ba_group_ports := GROUP_PORTS;
              ba_deploy_path := MACHINE_DEPLOY_PATH |} in
  emit (EvNewBootstrapAgent b) ;; ret b.

Definition new_Instructor (i : Instructor) : M Instructor :=
  emit (EvNewInstructor i) ;; ret i.

Definition bound (t : Tunnel) (b : BootstrapAgent) (i : Instructor) : Locals :=
  {| tunnel := Some t; bootstrapagent := Some b; assistant := Some i |}.

Definition unbound : Locals :=
  {| tunnel := None; bootstrapagent := None; assistant := None |}.

(** The first dispatch of [main]: the [if]/[elif] chain that constructs
    the tunnel, the bootstrap agent and the instructor. *)
Definition construct_for_mode (config : Configuration) : M Locals :=
  if mode config =? "FOR" then
    t <- new_Tunnel config (Some (forwarders_string config)) ;;
    b <- new_BootstrapAgent t ;;
    a <- new_Instructor (ForInstructor GROUP_PORTS) ;;
    ret (bound t b a)
  else if mode config =? "TOR" then
    t <- new_Tunnel config None ;;
    b <- new_BootstrapAgent t ;;
    ip_i <- subscript (destination config) "host_ip" ;;
    ip_e <- subscript (destination config) "host_ip" ;;
    a <- new_Instructor (TorInstructor GROUP_PORTS ip_i ip_e) ;;
    ret (bound t b a)
  else if mode config =? "FILE" then
    t <- new_Tunnel config None ;;
    b <- new_BootstrapAgent t ;;
    a <- new_Instructor (FileInstructor GROUP_PORTS) ;;
    ret (bound t b a)
  else if mode config =? "INTERACTIVE" then
    t <- new_Tunnel config None ;;
    b <- new_BootstrapAgent t ;;
    a <- new_Instructor (InteractiveInstructor GROUP_PORTS) ;;
    ret (bound t b a)
  else
    discard (SystemExit 1) ;;
    ret unbound.

(** Modelled from the spec: [setup_link] of the helpers module
    ([powermolecli/lib]) is not among the sources.  The spec has it start
    the collaborators in order and surface any start failure as the
    distinguished set-up error; the comment in [main] adds that only this
    routine raises [SetupFailed].  The call
    [setup_link(state, transferagent, tunnel, bootstrapagent, assistant,
    debug=DEBUG)] is recorded with its arguments and then returns or
    raises as the environment says. *)
Definition setup_link (E : Env) (ta : TransferAgent) (tn : Tunnel)
    (ba : BootstrapAgent) (ins : Instructor) (debug : bool) : M unit :=
  emit (EvSetupLink ta tn ba ins debug) ;;
  match setup_link_result E with
  | Some msg => raise (SetupFailed msg)
  | None => ret tt
  end.

(** [assistant.exec_command(command)]: a method of the interactive
    instructor. *)
Definition exec_command (E : Env) (ins : Instructor) (command : str)
  : M (list Byte.byte) :=
  match ins with
  | InteractiveInstructor _ =>
      emit (EvExecCommand command) ;; ret (exec_command_response E command)
  | _ => raise (AttributeError "exec_command")
  end.

(** [assistant.transfer(metadata_files=...)]: a method of the file
    instructor. *)
Definition transfer (ins : Instructor) (metadata_files : list (dict string))
  : M unit :=
  match ins with
  | FileInstructor _ => emit (EvTransfer metadata_files)
  | _ => raise (AttributeError "transfer")
  end.

(** [response_raw.decode("utf-8")]. *)
Definition decode (response_raw : list Byte.byte) : M str :=
  match utf8_decode response_raw with
  | Some s => ret s
  | None => raise UnicodeDecodeError
  end.

Definition prefix_line (line : str) : str := ascii_str ">    " ++ line.

(** The body of the [while True] loop of INTERACTIVE mode. *)
Definition interactive_body (E : Env) (l : Locals) : M unit :=
  command <- input "enter command: " ;;
  ins <- local "assistant" (assistant l) ;;
  response_raw <- exec_command E ins command ;;
  response_str <- decode response_raw ;;
  let response_line := split_on newline response_str in
  for_each response_line (fun line => print (prefix_line line)).

Definition interactive_loop (E : Env) (l : Locals) (fuel : nat) : M unit :=
  try_except
    (while_true fuel (interactive_body E l))
    (fun e => match e with
              | KeyboardInterrupt => Some (raise (SystemExit 0))
              | _ => None
              end).

(** The second dispatch of [main], inside the heartbeat scope. *)
Definition mode_branch (E : Env) (config : Configuration) (l : Locals)
    (fuel : nat) : M unit :=
  if mode config =? "FOR" then
    LOGGER_info "connections on local ports %s will be forwarded"
      [ArgStr (forwarders_ports config)] ;;
    LOGGER_info "READY" []
  else if mode config =? "TOR" then
    port <- subscript GROUP_PORTS "local_port_proxy" ;;
    LOGGER_info "local port %s will be listening for web traffic"
      [ArgInt port] ;;
    LOGGER_info "READY" []
  else if mode config =? "INTERACTIVE" then
    LOGGER_warning "the interface does not support shell meta characters " [] ;;
    LOGGER_warning "such as pipe and it's not possible to interact with " [] ;;
    LOGGER_warning "programs that need a response. hit control-c to quit" [] ;;
    interactive_loop E l fuel
  else if mode config =? "FILE" then
    ins <- local "assistant" (assistant l) ;;
    transfer ins (files config) ;;
    raise (SystemExit 0)
  else
    discard (SystemExit 1).

(** [if config.application:]: [None] and the empty dict are false. *)
Definition truthy {V : Type} (d : option (dict V)) : option (dict V) :=
  match d with
  | Some (_ :: _) => d
  | _ => None
  end.

(** The application branch: start the program, then sleep in 5-second
    ticks; on an interrupt terminate the child and raise the interrupt
    again. *)
Definition application_branch (config : Configuration) (fuel : nat) : M unit :=
  match truthy (application config) with
  | Some app =>
      LOGGER_info "starting application..." [] ;;
      binary_name <- subscript app "binary_name" ;;
      binary_location <- subscript app "binary_location" ;;
      emit (EvStartApplication binary_name binary_location) ;;
      try_except
        (while_true fuel (sleep 5))
        (fun e => match e with
                  | KeyboardInterrupt =>
                      Some (emit EvProcessTerminate ;; raise KeyboardInterrupt)
                  | _ => None
                  end)
  | None => ret tt
  end.

(** The last loop of [main]. *)
Definition idle_loop (l : Locals) (fuel : nat) : M unit :=
  while_true fuel
    ((if DEBUG then
        LOGGER_warning "debugging mode enabled" [] ;;
        _ <- local "tunnel" (tunnel l) ;;
        emit EvTunnelDebug
      else ret tt) ;;
     sleep 1).

(** The body of [with StateManager() as state:]. *)
Definition session_body (E : Env) (config : Configuration) (fuel : nat) : M unit :=
  emit (EvWriteSshConfigFile LOCAL_PATH_SSH_CFG (gateways config)
          (destination config)) ;;
  let transferagent :=
    {| ta_path := LOCAL_PATH_SSH_CFG; ta_all_hosts := all_hosts config |} in
  emit (EvNewTransferAgent transferagent) ;;
  l <- construct_for_mode config ;;
  tn <- local "tunnel" (tunnel l) ;;
  ba <- local "bootstrapagent" (bootstrapagent l) ;;
  ins <- local "assistant" (assistant l) ;;
  setup_link E transferagent tn ba ins DEBUG ;;
  _ <- local "tunnel" (tunnel l) ;;
  emit EvPeriodicallyPurgeBuffer ;;
  port <- subscript GROUP_PORTS "local_port_heartbeat" ;;
  with_ (EvHeartbeatEnter port) EvHeartbeatExit
    (mode_branch E config l fuel ;;
     application_branch config fuel ;;
     idle_loop l fuel).

Definition session (E : Env) (config : Configuration) (fuel : nat) : M unit :=
  with_ EvStateManagerEnter EvStateManagerExit (session_body E config fuel).

Definition coloredlogs_format : string :=
  "%(asctime)s %(name)s[%(process)d] %(levelname)s %(message)s".

(** [main()].  A [Configuration] object is true, so [if not config]
    holds for [None] only. *)
Definition main (E : Env) (fuel : nat) : M unit :=
  args <- lift (get_arguments (argv E)) ;;
  log_level <- getattr args "log_level" ;;
  level <- str_upper log_level ;;
  emit (EvColoredlogsInstall coloredlogs_format level) ;;
  config_file <- getattr args "config_file" ;;
  config <- parse_config_file E config_file ;;
  match config with
  | None => ret tt
  | Some config =>
      try_except
        (session E config fuel)
        (fun e => match e with
                  | SetupFailed msg =>
                      Some (LOGGER_error msg [] ;; raise (SystemExit 1))
                  | _ => None
                  end)
  end.

(** The exit status of the interpreter when [main] is the last thing it
    runs: the code of a [SystemExit], 0 when [main] returns, 1 for an
    exception that prints a traceback.  An uncaught [KeyboardInterrupt]
    ends the process through the interrupt signal and has no status of
    its own. *)
Definition exit_status {A : Type} (r : outcome A) : option Z :=
  match r with
  | Ret _ => Some 0%Z
  | Raise (SystemExit code) => Some code
  | Raise KeyboardInterrupt => None
  | Raise _ => Some 1%Z
  | OutOfFuel => None
  end.

(** ** Reading a trace *)

(** The command line was accepted and the two attributes that [main]
    reads hold [level] and [path]. *)
Definition parsed_arguments (E : Env) (level : string) (path : Argparse.pyval)
  : Prop :=
  exists args,
    get_arguments (argv E) = Ret args /\
    dict_get args "log_level" = Some (Argparse.PyStr level) /\
    dict_get args "config_file" = Some path.

Definition valid_modes : list string := ["FOR"; "TOR"; "FILE"; "INTERACTIVE"].

(** A configuration as the loader hands it out: one of the four modes,
    and a destination that names its address. *)
Definition valid_configuration (config : Configuration) : Prop :=
  In (mode config) valid_modes /\
  exists ip, dict_get (destination config) "host_ip" = Some ip.

(** The name of the mode an instructor variant belongs to. *)
Definition variant (i : Instructor) : string :=
  match i with
  | ForInstructor _ => "FOR"
  | TorInstructor _ _ _ => "TOR"
  | FileInstructor _ => "FILE"
  | InteractiveInstructor _ => "INTERACTIVE"
  end.

(** Opening the state-manager scope or constructing a collaborator. *)
Definition constructs (e : event) : bool :=
  match e with
  | EvStateManagerEnter | EvNewTransferAgent _ | EvNewTunnel _
  | EvNewBootstrapAgent _ | EvNewInstructor _ => true
  | _ => false
  end.

(** What happens only inside a mode loop, the application branch or an
    idle loop. *)
Definition mode_loop_event (e : event) : bool :=
  match e with
  | EvInput _ | EvExecCommand _ | EvPrint _ | EvTransfer _
  | EvStartApplication _ _ | EvSleep _ | EvProcessTerminate
  | EvTunnelDebug => true
  | _ => false
  end.

(** Entering the application branch or an idle loop. *)
Definition launch_or_idle (e : event) : bool :=
  match e with
  | EvStartApplication _ _ | EvSleep _ | EvProcessTerminate
  | EvTunnelDebug => true
  | _ => false
  end.

Definition scope_event (e : event) : bool :=
  match e with
  | EvStateManagerEnter | EvStateManagerExit
  | EvHeartbeatEnter _ | EvHeartbeatExit => true
  | _ => false
  end.

Definition is_setup_link (e : event) : bool :=
  match e with
  | EvSetupLink _ _ _ _ _ => true
  | _ => false
  end.



Fixpoint printed (t : list event) : list str :=
  match t with
  | [] => []
  | EvPrint l :: t' => l :: printed t'
  | _ :: t' => printed t'
  end.

Fixpoint transfers (t : list event) : list (list (dict string)) :=
  match t with
  | [] => []
  | EvTransfer f :: t' => f :: transfers t'
  | _ :: t' => transfers t'
  end.

(** [l] ends with [suffix]. *)
Definition ends_with (l suffix : list event) : Prop :=
  exists pre, l = pre ++ suffix.

(** The objects of a session. *)
Definition transferagent_of (config : Configuration) : TransferAgent :=
  {| ta_path := LOCAL_PATH_SSH_CFG; ta_all_hosts := all_hosts config |}.

Definition tunnel_of (config : Configuration) (forwarders : option string)
  : Tunnel :=
  {| tn_path := LOCAL_PATH_SSH_CFG; tn_mode := mode config;
     tn_all_hosts := all_hosts config; tn_group_ports := GROUP_PORTS;
     tn_forwarders := forwarders |}.

Definition bootstrapagent_of (t : Tunnel) : BootstrapAgent :=
  {| ba_tunnel := t; ba_group_ports := GROUP_PORTS;
     ba_deploy_path := MACHINE_DEPLOY_PATH |}.

(** The trace of a run from its start to the opening of the heartbeat
    scope, for a tunnel [tn] and an instructor [ins]. *)
Definition opening (level : string) (config : Configuration) (tn : Tunnel)
    (ins : Instructor) : list event :=
  [EvColoredlogsInstall coloredlogs_format (upper level);
   EvLog INFO ("mode " ++ mode config ++ " enabled")%string [];
   EvStateManagerEnter;
   EvWriteSshConfigFile LOCAL_PATH_SSH_CFG (gateways config)
     (destination config);
   EvNewTransferAgent (transferagent_of config);
   EvNewTunnel tn;
   EvNewBootstrapAgent (bootstrapagent_of tn);
   EvNewInstructor ins;
   EvSetupLink (transferagent_of config) tn (bootstrapagent_of tn) ins false;
   EvPeriodicallyPurgeBuffer;
   EvHeartbeatEnter 33193].

(** The tunnel and the instructor of a persistent mode, and what the
    mode logs when it is ready. *)
Definition persistent_tunnel (config : Configuration) : Tunnel :=
  if mode config =? "FOR"
  then tunnel_of config (Some (forwarders_string config))
  else tunnel_of config None.

Definition persistent_instructor (config : Configuration) (ip : string)
  : Instructor :=
  if mode config =? "FOR" then ForInstructor GROUP_PORTS
  else TorInstructor GROUP_PORTS ip ip.

Definition ready (config : Configuration) : list event :=
  if mode config =? "FOR"
  then [EvLog INFO "connections on local ports %s will be forwarded"
          [ArgStr (forwarders_ports config)];
        EvLog INFO "READY" []]
  else [EvLog INFO "local port %s will be listening for web traffic"
          [ArgInt 8080];
        EvLog INFO "READY" []].

Definition interactive_warnings : list event :=
  [EvLog WARNING "the interface does not support shell meta characters " [];
   EvLog WARNING "such as pipe and it's not possible to interact with " [];
   EvLog WARNING "programs that need a response. hit control-c to quit" []].

(** What one round of the interactive loop adds to the trace when the
    response to [command] decodes to [text]. *)
Definition dialogue (command text : str) : list event :=
  EvInput "enter command: " :: EvExecCommand command ::
  map (fun line => EvPrint (ascii_str ">    " ++ line)) (split_on newline text).

Definition dialogues (commands texts : list str) : list event :=
  flat_map (fun ct => dialogue (fst ct) (snd ct)) (combine commands texts).

(** The response to each command decodes to the text at the same place. *)
Definition responses (E : Env) (commands texts : list str) : Prop :=
  Forall2 (fun c t => utf8_decode (exec_command_response E c) = Some t)
    commands texts.

(** [intercalate sep ls]: the inverse of [split_on]. *)
Fixpoint join (sep : N) (ls : list str) : str :=
  match ls with
  | [] => []
  | [l] => l
  | l :: ls' => l ++ sep :: join sep ls'
  end.

(** What [get_arguments] can leave in the namespace: a path is any
    string, a level is one of the choices; the explicit argument [--]
    (as in [--log-level=--]) is stripped by argparse and leaves an empty
    list. *)
Definition stored_path (v : Argparse.pyval) : Prop :=
  (exists p, v = Argparse.PyStr p) \/ v = Argparse.PyList [].

Definition stored_level (v : Argparse.pyval) : Prop :=
  (exists c, v = Argparse.PyStr c /\ In c log_level_choices) \/
  v = Argparse.PyList [].

Definition arguments_namespace (ns : Argparse.Namespace) : Prop :=
  exists cf ll,
    ns = [("config_file", cf); ("log_level", ll)] /\
    stored_path cf /\ stored_level ll.

(** An outcome of the argument parser: a value that satisfies [Q], or an
    exit with status 0 or 2. *)
Definition parser_outcome {A : Type} (Q : A -> Prop) (r : outcome A) : Prop :=
  match r with
  | Ret a => Q a
  | Raise (SystemExit code) => code = 0%Z \/ code = 2%Z
  | _ => False
  end.

Definition config_file_action : Argparse.Action :=
  {| Argparse.option_strings := ["--config-file"; "-c"];
     Argparse.dest := Some "config_file";
     Argparse.default := Some (Argparse.PyStr EmptyString);
     Argparse.choices := None;
     Argparse.action := Argparse.StoreAction |}.

Definition log_level_action : Argparse.Action :=
  {| Argparse.option_strings := ["--log-level"; "-L"];
     Argparse.dest := Some "log_level";
     Argparse.default := Some (Argparse.PyStr "info");
     Argparse.choices := Some log_level_choices;
     Argparse.action := Argparse.StoreAction |}.

Definition the_parser : Argparse.ArgumentParser :=
  [Argparse.help_action; config_file_action; log_level_action].

Definition known_action (a : Argparse.Action) : Prop :=
  a = Argparse.help_action \/ a = config_file_action \/ a = log_level_action.

Definition known_token (tok : string * Argparse.arg_class) : Prop :=
  match snd tok with
  | Argparse.ClsO (Some a, _, _) => known_action a
  | _ => True
  end.

Definition known_tuple (t : Argparse.Action * list string) : Prop :=
  known_action (fst t) /\ length (snd t) <= 1.

(** ** Example runs *)

Definition example_configuration (m : string) (app : option (dict string))
  : Configuration :=
  {| mode := m;
     gateways := [[("host_ip", "10.10.1.72")]];
     destination := [("host_ip", "10.10.2.92")];
     all_hosts := ["10.10.1.72"; "10.10.2.92"];
     forwarders_string := "-L:587:localhost:587";
     forwarders_ports := "587";
     files := [[("source", "/home/user/a.txt"); ("destination", "/tmp")]];
     application := app |}.


(** The agent answers every command with the bytes of ["hi\n"]. *)
Definition example_env (args : list string) (loaded : outcome Configuration)
    (setup : option string) : Env :=
  {| argv := args;
     load_configuration := fun _ => loaded;
     setup_link_result := setup;
     exec_command_response := fun _ => [Byte.x68; Byte.x69; Byte.x0a] |}.

(** ** Describing runs *)

(** [run_spec m R X Q]: from every state, [m] adds to the trace only
    events that satisfy [Q]; a value that it returns satisfies [R] and an
    exception that it raises satisfies [X]. *)
Definition run_spec {A : Type} (m : M A) (R : A -> Prop) (X : exn -> Prop)
    (Q : event -> bool) : Prop :=
  forall s, exists evs,
    trace (snd (m s)) = trace s ++ evs /\
    forallb Q evs = true /\
    match fst (m s) with
    | Ret a => R a
    | Raise e => X e
    | OutOfFuel => True
    end.

(** The body of [with Heartbeat(...)]: the branch of the mode, the
    application branch and the last loop. *)
Definition heartbeat_body (E : Env) (config : Configuration) (l : Locals)
    (fuel : nat) : M unit :=
  mode_branch E config l fuel ;;
  application_branch config fuel ;;
  idle_loop l fuel.

(** What only the body of the heartbeat scope does, by mode. *)
Definition inner_allowed (m : string) (e : event) : bool :=
  match e with
  | EvLog INFO _ _ | EvStartApplication _ _ | EvSleep _
  | EvProcessTerminate => (m =? "FOR") || (m =? "TOR")
  | EvLog WARNING _ _ | EvInput _ | EvExecCommand _
  | EvPrint _ => m =? "INTERACTIVE"
  | EvTransfer _ => m =? "FILE"
  | _ => false
  end.

(** What a session of mode [m] does. *)
Definition allowed (m : string) (e : event) : bool :=
  match e with
  | EvStateManagerEnter | EvStateManagerExit | EvWriteSshConfigFile _ _ _
  | EvNewTransferAgent _ | EvNewTunnel _ | EvNewBootstrapAgent _
  | EvNewInstructor _ | EvSetupLink _ _ _ _ _ | EvPeriodicallyPurgeBuffer
  | EvHeartbeatEnter _ | EvHeartbeatExit => true
  | _ => inner_allowed m e
  end.

(** The exceptions that leave a session, and when. *)
Definition session_raises (E : Env) (config : Configuration) (e : exn) : Prop :=
  match e with
  | UnboundLocalError name =>
      name = "tunnel" /\ ~ In (mode config) valid_modes
  | KeyError key =>
      (key = "host_ip" /\ mode config = "TOR" /\
       dict_get (destination config) "host_ip" = None) \/
      ((mode config = "FOR" \/ mode config = "TOR") /\
       exists app, truthy (application config) = Some app /\
                   dict_get app key = None /\
                   (key = "binary_name" \/ key = "binary_location"))
  | SetupFailed msg => setup_link_result E = Some msg
  | SystemExit code =>
      code = 0%Z /\ (mode config = "FILE" \/ mode config = "INTERACTIVE")
  | KeyboardInterrupt => mode config = "FOR" \/ mode config = "TOR"
  | EOFError | UnicodeDecodeError => mode config = "INTERACTIVE"
  | AttributeError _ | InvalidConfigurationFile | ExternalError _ => False
  end.

(** The locals after the dispatch of a valid mode. *)
Definition dispatched (config : Configuration) (l : Locals) : Prop :=
  In (mode config) valid_modes /\
  exists t b i, l = bound t b i /\ variant i = mode config.

(** The state after [evs] were added to the trace. *)
Definition log_events (evs : list event) (s : State) : State :=
  {| trace := trace s ++ evs; stdin := stdin s;
     interrupt_after := interrupt_after s |}.

(** The [try] statement of [main]. *)
Definition guarded_session (E : Env) (config : Configuration) (fuel : nat)
  : M unit :=
  try_except
    (session E config fuel)
    (fun e => match e with
              | SetupFailed msg =>
                  Some (LOGGER_error msg [] ;; raise (SystemExit 1))
              | _ => None
              end).

(** What [parse_config_file] logs for a configuration. *)
Definition mode_record (config : Configuration) : list event :=
  if str_in (mode config) valid_modes
  then [EvLog INFO ("mode " ++ mode config ++ " enabled")%string []]
  else [].

(** The call of [coloredlogs.install] for a level of the command
    line. *)
Definition install_record (level : string) : event :=
  EvColoredlogsInstall coloredlogs_format (upper level).

(** What the handler of [SetupFailed] adds. *)
Definition is_error_log (e : event) : bool :=
  match e with
  | EvLog ERROR _ _ => true
  | _ => false
  end.

(** The exceptions that leave [main] once a configuration is loaded:
    those of the session, with [SetupFailed] turned into
    [SystemExit(1)]. *)
Definition main_raises (E : Env) (config : Configuration) (e : exn) : Prop :=
  match e with
  | SetupFailed _ => False
  | SystemExit code =>
      (code = 1%Z /\ exists msg, setup_link_result E = Some msg) \/
      session_raises E config (SystemExit code)
  | _ => session_raises E config e
  end.

(** The trace of a session up to the call of [setup_link]. *)
Definition session_opening (config : Configuration) (tn : Tunnel)
    (ins : Instructor) : list event :=
  [EvStateManagerEnter;
   EvWriteSshConfigFile LOCAL_PATH_SSH_CFG (gateways config)
     (destination config);
   EvNewTransferAgent (transferagent_of config);
   EvNewTunnel tn;
   EvNewBootstrapAgent (bootstrapagent_of tn);
   EvNewInstructor ins;
   EvSetupLink (transferagent_of config) tn (bootstrapagent_of tn) ins false].

(** The tunnel and the instructor fit the configuration. *)
Definition fits (config : Configuration) (tn : Tunnel) (ins : Instructor)
  : Prop :=
  In (mode config) valid_modes /\
  variant ins = mode config /\
  tn = tunnel_of config
         (if mode config =? "FOR" then Some (forwarders_string config)
          else None).

(** Kinds of events. *)
Definition is_install (e : event) : bool :=
  match e with
  | EvColoredlogsInstall _ _ => true
  | _ => false
  end.

Definition is_transfer (e : event) : bool :=
  match e with
  | EvTransfer _ => true
  | _ => false
  end.

(** Reading a command, sending it, printing the answer. *)
Definition is_dialogue (e : event) : bool :=
  match e with
  | EvInput _ | EvExecCommand _ | EvPrint _ => true
  | _ => false
  end.

(** The choices of [--log-level] in upper case. *)
Definition upper_levels : list string :=
  ["DEBUG"; "INFO"; "WARNING"; "ERROR"; "CRITICAL"].

(** The key that the application branch misses first. *)
Definition missing_key (app : dict string) : option string :=
  match dict_get app "binary_name" with
  | None => Some "binary_name"
  | Some _ =>
      match dict_get app "binary_location" with
      | None => Some "binary_location"
      | Some _ => None
      end
  end.

(** ** Command lines

    The argument starts with the prefix character of the parser. *)
Definition starts_with_dash (s : string) : bool :=
  match s with
  | String c _ => Argparse.is_prefix_char c
  | EmptyString => false
  end.

(** The option strings of the two options. *)
Definition config_file_names : list string := ["--config-file"; "-c"].
Definition log_level_names : list string := ["--log-level"; "-L"].

(** An option and its value, given as two arguments. *)
Definition setting : Type := (string * string)%type.

(** A setting that the parser accepts: a path that does not start
    with a dash, or a level that is one of the choices. *)
Definition well_formed (nv : setting) : Prop :=
  (In (fst nv) config_file_names /\ starts_with_dash (snd nv) = false) \/
  (In (fst nv) log_level_names /\ In (snd nv) log_level_choices).

(** The arguments of a sequence of settings. *)
Definition command_line (settings : list setting) : list string :=
  flat_map (fun nv => [fst nv; snd nv]) settings.

(** The value of the last setting with one of the [names], or [d]. *)
Fixpoint last_value (names : list string) (d : string)
    (settings : list setting) : string :=
  match settings with
  | [] => d
  | nv :: r => last_value names (if str_in (fst nv) names then snd nv else d) r
  end.

(** The action of an option string, and the classified arguments of a
    sequence of settings. *)
Definition action_named (name : string) : Argparse.Action :=
  if str_in name config_file_names then config_file_action
  else log_level_action.

Definition tokens (settings : list setting)
  : list (string * Argparse.arg_class) :=
  flat_map (fun nv =>
              [(fst nv,
                Argparse.ClsO (Some (action_named (fst nv)), fst nv, None));
               (snd nv, Argparse.ClsA)])
           settings.

(** The namespace that holds a path and a level. *)
Definition namespace_of (path level : string) : Argparse.Namespace :=
  [("config_file", Argparse.PyStr path); ("log_level", Argparse.PyStr level)].

(** ** Further example runs

    An agent whose answer is not UTF-8. *)
Definition garbled_env : Env :=
  {| argv := [];
     load_configuration :=
       fun _ => Ret (example_configuration "INTERACTIVE" None);
     setup_link_result := None;
     exec_command_response := fun _ => [Byte.xff] |}.

(** A TOR configuration whose destination has no address. *)
Definition example_without_host_ip : Configuration :=
  {| mode := "TOR";
     gateways := [[("host_ip", "10.10.1.72")]];
     destination := [("user", "root")];
     all_hosts := ["10.10.1.72"];
     forwarders_string := EmptyString;
     forwarders_ports := EmptyString;
     files := [];
     application := None |}.

Arguments interactive_loop : simpl never.
Arguments interactive_body : simpl never.
Arguments idle_loop : simpl never.
Arguments prefix_line : simpl never.
Arguments heartbeat_body : simpl never.

(** ** Auxiliary facts *)

Lemma ends_with_refl (l : list event) : ends_with l l.
Proof. exists []. reflexivity. Qed.

Lemma ends_with_cons (e : event) (l suffix : list event) :
  ends_with l suffix -> ends_with (e :: l) suffix.
Proof. intros [pre ->]. exists (e :: pre). reflexivity. Qed.

Lemma ends_with_app (l1 l suffix : list event) :
  ends_with l suffix -> ends_with (l1 ++ l) suffix.
Proof. intros [pre ->]. exists (l1 ++ pre). now rewrite app_assoc. Qed.

Ltac ends_with_tac :=
  repeat first [ apply ends_with_refl | apply ends_with_cons
               | apply ends_with_app ].

Lemma mode_cases (m : string) :
  m = "FOR" \/ m = "TOR" \/ m = "FILE" \/ m = "INTERACTIVE" \/
  ((m =? "FOR") = false /\ (m =? "TOR") = false /\
   (m =? "FILE") = false /\ (m =? "INTERACTIVE") = false).
Proof.
  destruct (String.eqb_spec m "FOR"); [ tauto | ].
  destruct (String.eqb_spec m "TOR"); [ tauto | ].
  destruct (String.eqb_spec m "FILE"); [ tauto | ].
  destruct (String.eqb_spec m "INTERACTIVE"); tauto.
Qed.

Lemma in_valid_modes (m : string) :
  In m valid_modes ->
  m = "FOR" \/ m = "TOR" \/ m = "FILE" \/ m = "INTERACTIVE".
Proof.
  unfold valid_modes. simpl. intros H.
  repeat (destruct H as [H | H]; [ symmetry in H; tauto | ]).
  contradiction.
Qed.

Lemma not_in_valid_modes (m : string) :
  ~ In m valid_modes ->
  (m =? "FOR") = false /\ (m =? "TOR") = false /\
  (m =? "FILE") = false /\ (m =? "INTERACTIVE") = false.
Proof.
  unfold valid_modes. simpl. intros H.
  repeat split; apply String.eqb_neq; intros ->; tauto.
Qed.

(** Unfolding of [main] up to the loading of the configuration. *)
Ltac start_main Hparsed :=
  let args := fresh "args" in
  let Ha := fresh "Hargs" in
  let Hl := fresh "Hlevel" in
  let Hc := fresh "Hpath" in
  destruct Hparsed as (args & Ha & Hl & Hc);
  unfold main, bind, lift, getattr; rewrite Ha, Hl, Hc; cbn;
  unfold parse_config_file, try_except, bind, new_Configuration, lift.

(** Unfolding of the session up to its first loop. *)
Ltac unfold_session :=
  unfold session, session_body, with_, bind, construct_for_mode, new_Tunnel,
    new_BootstrapAgent, new_Instructor, setup_link, mode_branch,
    application_branch, transfer, subscript, local, discard, LOGGER_info,
    LOGGER_warning, LOGGER_error, try_except, emit, ret, raise, bind.

(** ** Configuration loading and mode dispatch *)

(** C1.  When the constructor of [Configuration] raises
    [InvalidConfigurationFile], [parse_config_file] returns [None] and
    leaves the state as it was, and [main] returns after the logging
    set-up: its trace is that single call, so no state-manager scope is
    opened and no transfer agent, tunnel, bootstrap agent or instructor
    is constructed. *)
Theorem invalid_configuration_returns_early
    (E : Env) (fuel : nat) (level : string) (path : Argparse.pyval)
    (input : list stdin_event) (intr : option nat) :
  parsed_arguments E level path ->
  load_configuration E path = Raise InvalidConfigurationFile ->
  (forall s, parse_config_file E path s = (Ret None, s)) /\
  main E fuel (initial_state input intr) =
    (Ret tt,
     {| trace := [EvColoredlogsInstall coloredlogs_format (upper level)];
        stdin := input; interrupt_after := intr |}) /\
  existsb constructs
    (trace (snd (main E fuel (initial_state input intr)))) = false.
Proof.
  intros Hparsed Hload.
  assert (Hp : forall s, parse_config_file E path s = (Ret None, s)).
  { intros s.
    unfold parse_config_file, try_except, bind, new_Configuration, lift.
    rewrite Hload. reflexivity. }
  assert (Hm : main E fuel (initial_state input intr) =
    (Ret tt,
     {| trace := [EvColoredlogsInstall coloredlogs_format (upper level)];
        stdin := input; interrupt_after := intr |})).
  { start_main Hparsed. rewrite Hload. reflexivity. }
  split; [ exact Hp | split; [ exact Hm | ] ].
  rewrite Hm. reflexivity.
Qed.

Lemma invalid_configuration_returns_early_witness :
  main (example_env [] (Raise InvalidConfigurationFile) None) 0
    (initial_state [] None) =
    (Ret tt,
     {| trace := [EvColoredlogsInstall coloredlogs_format "INFO"];
        stdin := []; interrupt_after := None |}).
Proof.
  apply (invalid_configuration_returns_early
           (example_env [] (Raise InvalidConfigurationFile) None) 0
           "info" (Argparse.PyStr EmptyString) [] None).
  - eexists. repeat split; reflexivity.
  - reflexivity.
Defined.

(** C2.  In every run that calls [setup_link] and in which it raises
    [SetupFailed msg], [main] leaves the state-manager scope, logs [msg]
    as an error and raises [SystemExit(1)], so the process ends with
    status 1; the trace holds no input, command, print, transfer,
    application or sleep event: no mode loop is entered. *)
Theorem setup_failure_exits_1
    (E : Env) (fuel : nat) (level : string) (path : Argparse.pyval)
    (config : Configuration) (msg : string)
    (input : list stdin_event) (intr : option nat) :
  parsed_arguments E level path ->
  load_configuration E path = Ret config ->
  setup_link_result E = Some msg ->
  existsb is_setup_link
    (trace (snd (main E fuel (initial_state input intr)))) = true ->
  let r := main E fuel (initial_state input intr) in
  fst r = Raise (SystemExit 1) /\
  exit_status (fst r) = Some 1%Z /\
  ends_with (trace (snd r)) [EvStateManagerExit; EvLog ERROR msg []] /\
  existsb mode_loop_event (trace (snd r)) = false.
Proof.
  intros Hparsed Hload Hsetup.
  start_main Hparsed. rewrite Hload. cbn.
  destruct (mode_cases (mode config))
    as [Hm | [Hm | [Hm | [Hm | (H1 & H2 & H3 & H4)]]]].
  - rewrite Hm. cbn. unfold_session. rewrite Hm, Hsetup. cbn.
    intros _. repeat split. ends_with_tac.
  - rewrite Hm. cbn. unfold_session. rewrite Hm. cbn.
    destruct (dict_get (destination config) "host_ip") as [ip |]; cbn.
    + rewrite Hsetup. cbn. intros _. repeat split. ends_with_tac.
    + discriminate.
  - rewrite Hm. cbn. unfold_session. rewrite Hm, Hsetup. cbn.
    intros _. repeat split. ends_with_tac.
  - rewrite Hm. cbn. unfold_session. rewrite Hm, Hsetup. cbn.
    intros _. repeat split. ends_with_tac.
  - rewrite H1, H2, H3, H4. cbn. unfold_session.
    rewrite H1, H2, H3, H4. cbn. discriminate.
Qed.

Lemma setup_failure_exits_1_witness :
  fst (main (example_env [] (Ret (example_configuration "TOR" None))
              (Some "tunnel could not be started")) 3
         (initial_state [] None)) = Raise (SystemExit 1).
Proof.
  apply (setup_failure_exits_1
           (example_env [] (Ret (example_configuration "TOR" None))
              (Some "tunnel could not be started")) 3
           "info" (Argparse.PyStr EmptyString) (example_configuration "TOR" None)
           "tunnel could not be started" [] None).
  - eexists. repeat split; reflexivity.
  - reflexivity.
  - reflexivity.
  - reflexivity.
Defined.

(** C3.  For a valid configuration, [parse_config_file] logs
    ["mode X enabled"] for the mode [X] of the configuration, and the
    dispatch of [main] constructs one tunnel, one bootstrap agent and
    exactly one instructor, whose variant is the one of that mode; all
    three locals are bound afterwards. *)
Theorem mode_dispatch_selects_one_instructor
    (E : Env) (path : Argparse.pyval) (config : Configuration) (s : State) :
  load_configuration E path = Ret config ->
  valid_configuration config ->
  parse_config_file E path s =
    (Ret (Some config),
     {| trace := trace s ++
                 [EvLog INFO ("mode " ++ mode config ++ " enabled")%string []];
        stdin := stdin s; interrupt_after := interrupt_after s |}) /\
  exists t b i,
    construct_for_mode config s =
      (Ret (bound t b i),
       {| trace := trace s ++
                   [EvNewTunnel t; EvNewBootstrapAgent b; EvNewInstructor i];
          stdin := stdin s; interrupt_after := interrupt_after s |}) /\
    variant i = mode config.
Proof.
  intros Hload [Hmode [ip Hip]].
  unfold parse_config_file, try_except, bind, new_Configuration, lift.
  rewrite Hload. cbn.
  destruct (in_valid_modes _ Hmode) as [Hm | [Hm | [Hm | Hm]]];
    rewrite Hm; cbn; (split; [ reflexivity | ]);
    unfold construct_for_mode, new_Tunnel, new_BootstrapAgent,
      new_Instructor, subscript, bind, emit, ret;
    rewrite Hm; cbn; try rewrite Hip; cbn;
    do 3 eexists; rewrite <- !app_assoc; cbn; split; reflexivity.
Qed.

Lemma mode_dispatch_selects_one_instructor_witness :
  exists t b i,
    construct_for_mode (example_configuration "TOR" None)
      (initial_state [] None) =
      (Ret (bound t b i),
       {| trace := [EvNewTunnel t; EvNewBootstrapAgent b; EvNewInstructor i];
          stdin := []; interrupt_after := None |}) /\
    variant i = "TOR".
Proof.
  apply (mode_dispatch_selects_one_instructor
           (example_env [] (Ret (example_configuration "TOR" None)) None)
           (Argparse.PyStr EmptyString) (example_configuration "TOR" None)
           (initial_state [] None)).
  - reflexivity.
  - split; [ simpl; tauto | eexists; reflexivity ].
Defined.

(** C10.  For a mode outside the four, the [else] branch of either
    dispatch only evaluates [SystemExit(1)]: the first dispatch returns
    with no local bound and the second returns as well, and neither adds
    an event to the trace, so nothing is constructed and nothing is
    raised. *)
Theorem unknown_mode_falls_through
    (E : Env) (config : Configuration) (l : Locals) (fuel : nat) (s : State) :
  ~ In (mode config) valid_modes ->
  construct_for_mode config s = (Ret unbound, s) /\
  mode_branch E config l fuel s = (Ret tt, s).
Proof.
  intros Hmode.
  destruct (not_in_valid_modes _ Hmode) as (H1 & H2 & H3 & H4).
  unfold construct_for_mode, mode_branch.
  rewrite H1, H2, H3, H4. split; reflexivity.
Qed.

Lemma unknown_mode_falls_through_witness :
  construct_for_mode (example_configuration "SOCKS" None)
    (initial_state [] None) = (Ret unbound, initial_state [] None) /\
  mode_branch (example_env [] (Ret (example_configuration "SOCKS" None)) None)
    (example_configuration "SOCKS" None) unbound 1 (initial_state [] None) =
    (Ret tt, initial_state [] None).
Proof.
  apply (unknown_mode_falls_through
           (example_env [] (Ret (example_configuration "SOCKS" None)) None)
           (example_configuration "SOCKS" None) unbound 1
           (initial_state [] None)).
  unfold valid_modes. simpl. intros H.
  repeat (destruct H as [H | H]; [ discriminate H | ]). exact H.
Defined.

(** After the dispatch has fallen through, the call of [setup_link]
    reads the unbound local [tunnel]: the run of an unknown mode ends
    there, inside the state-manager scope, and never reaches the second
    dispatch. *)
Lemma unknown_mode_run
    (E : Env) (fuel : nat) (level : string) (path : Argparse.pyval)
    (config : Configuration) (input : list stdin_event) (intr : option nat) :
  parsed_arguments E level path ->
  load_configuration E path = Ret config ->
  ~ In (mode config) valid_modes ->
  main E fuel (initial_state input intr) =
    (Raise (UnboundLocalError "tunnel"),
     {| trace := [EvColoredlogsInstall coloredlogs_format (upper level);
                  EvStateManagerEnter;
                  EvWriteSshConfigFile LOCAL_PATH_SSH_CFG (gateways config)
                    (destination config);
                  EvNewTransferAgent (transferagent_of config);
                  EvStateManagerExit];
        stdin := input; interrupt_after := intr |}).
Proof.
  intros Hparsed Hload Hmode.
  destruct (not_in_valid_modes _ Hmode) as (H1 & H2 & H3 & H4).
  start_main Hparsed. rewrite Hload. cbn. rewrite H1, H2, H3, H4. cbn.
  unfold_session. rewrite H1, H2, H3, H4. reflexivity.
Qed.

(** C5.  In FILE mode the driver calls [transfer] once, with
    [config.files] as [metadata_files], and then raises [SystemExit(0)]:
    the process ends with status 0 after leaving both scopes, and the
    trace holds no application start, sleep, terminate or debug event.
    No loop is entered, so this holds for every bound on the loops. *)
Theorem file_mode_transfers_once
    (E : Env) (fuel : nat) (level : string) (path : Argparse.pyval)
    (config : Configuration) (input : list stdin_event) (intr : option nat) :
  parsed_arguments E level path ->
  load_configuration E path = Ret config ->
  mode config = "FILE" ->
  setup_link_result E = None ->
  let r := main E fuel (initial_state input intr) in
  r = (Raise (SystemExit 0),
       {| trace := opening level config (tunnel_of config None)
                     (FileInstructor GROUP_PORTS) ++
                   [EvTransfer (files config); EvHeartbeatExit;
                    EvStateManagerExit];
          stdin := input; interrupt_after := intr |}) /\
  exit_status (fst r) = Some 0%Z /\
  transfers (trace (snd r)) = [files config] /\
  existsb launch_or_idle (trace (snd r)) = false.
Proof.
  intros Hparsed Hload Hm Hsetup.
  start_main Hparsed. rewrite Hload. cbn. rewrite Hm. cbn.
  unfold_session. rewrite Hm, Hsetup. cbn.
  unfold opening, tunnel_of, bootstrapagent_of, transferagent_of.
  rewrite Hm. cbn. repeat split.
Qed.

Lemma file_mode_transfers_once_witness :
  transfers
    (trace (snd (main (example_env [] (Ret (example_configuration "FILE" None))
                         None) 0 (initial_state [] None)))) =
    [files (example_configuration "FILE" None)].
Proof.
  apply (file_mode_transfers_once
           (example_env [] (Ret (example_configuration "FILE" None)) None) 0
           "info" (Argparse.PyStr EmptyString) (example_configuration "FILE" None)
           [] None).
  - eexists. repeat split; reflexivity.
  - reflexivity.
  - reflexivity.
  - reflexivity.
Defined.

(** ** Loops *)




(** With [DEBUG] off, the last loop of [main] only sleeps. *)
Lemma idle_loop_is_sleep_loop (l : Locals) (fuel : nat) :
  idle_loop l fuel = while_true fuel (sleep 1).
Proof. reflexivity. Qed.

Lemma for_each_print (f : str -> str) (lines : list str) :
  forall s,
    for_each lines (fun line => print (f line)) s =
      (Ret tt,
       {| trace := trace s ++ map (fun line => EvPrint (f line)) lines;
          stdin := stdin s; interrupt_after := interrupt_after s |}).
Proof.
  induction lines as [| line lines IH]; intros s.
  - simpl. unfold ret. rewrite app_nil_r. now destruct s.
  - simpl. unfold bind, print, emit. rewrite IH. simpl.
    now rewrite <- app_assoc.
Qed.

(** One round of the interactive loop: the line read is the argument of
    [exec_command], and the decoded response is printed line by line. *)
Lemma interactive_body_line (E : Env) (l : Locals) (ports : dict Z)
    (command text : str) (rest : list stdin_event) (s : State) :
  assistant l = Some (InteractiveInstructor ports) ->
  stdin s = Line command :: rest ->
  utf8_decode (exec_command_response E command) = Some text ->
  interactive_body E l s =
    (Ret tt,
     {| trace := trace s ++ dialogue command text; stdin := rest;
        interrupt_after := interrupt_after s |}).
Proof.
  intros Ha Hs Ht.
  unfold interactive_body, bind, input, emit. cbn. rewrite Hs, Ha. cbn.
  unfold decode. rewrite Ht. cbn. rewrite for_each_print. cbn.
  unfold dialogue. now rewrite <- !app_assoc.
Qed.

(** A response that is not UTF-8 ends the round with
    [UnicodeDecodeError] after the command was sent: nothing is printed. *)
Lemma interactive_body_undecodable (E : Env) (l : Locals) (ports : dict Z)
    (command : str) (rest : list stdin_event) (s : State) :
  assistant l = Some (InteractiveInstructor ports) ->
  stdin s = Line command :: rest ->
  utf8_decode (exec_command_response E command) = None ->
  interactive_body E l s =
    (Raise UnicodeDecodeError,
     {| trace := trace s ++ [EvInput "enter command: "; EvExecCommand command];
        stdin := rest; interrupt_after := interrupt_after s |}).
Proof.
  intros Ha Hs Ht.
  unfold interactive_body, bind, input, emit. cbn. rewrite Hs, Ha. cbn.
  unfold decode. rewrite Ht. cbn. now rewrite <- !app_assoc.
Qed.

Lemma interactive_lines (E : Env) (l : Locals) (ports : dict Z)
    (commands texts : list str) :
  assistant l = Some (InteractiveInstructor ports) ->
  responses E commands texts ->
  forall (k : nat) (rest : list stdin_event) (s : State),
    stdin s = map Line commands ++ rest ->
    while_true (length commands + k) (interactive_body E l) s =
    while_true k (interactive_body E l)
      {| trace := trace s ++ dialogues commands texts; stdin := rest;
         interrupt_after := interrupt_after s |}.
Proof.
  intros Ha Hall.
  induction Hall as [| c t cs ts Hc Hcs IH]; intros k rest s Hs.
  - simpl in *. unfold dialogues. simpl. rewrite app_nil_r, <- Hs.
    now destruct s.
  - simpl. unfold bind at 1.
    rewrite (interactive_body_line E l ports c t (map Line cs ++ rest) s
               Ha Hs Hc).
    rewrite (IH k rest) by reflexivity. simpl.
    unfold dialogues. simpl. now rewrite <- !app_assoc.
Qed.


(** ** Runs of the four modes *)




(** ** Projections of a trace *)


Lemma printed_app (t1 t2 : list event) :
  printed (t1 ++ t2) = printed t1 ++ printed t2.
Proof.
  induction t1 as [| e t1 IH]; [ reflexivity | ].
  destruct e; simpl; rewrite IH; reflexivity.
Qed.


Lemma printed_prints (f : str -> str) (lines : list str) :
  printed (map (fun line => EvPrint (f line)) lines) = map f lines.
Proof. induction lines as [| x lines IH]; simpl; [ | rewrite IH ]; auto. Qed.




(** ** INTERACTIVE mode *)









(** ** Persistent modes: application and idle loops *)







(** ** Argument parsing *)

(** C6, counterexample.  A log level outside the choices makes
    [parse_args] call [parser.error], which ends the process with
    status 2: no parsed-arguments value is produced.  The help flag,
    a third flag, ends it with status 0. *)
Lemma get_arguments_exits :
  get_arguments ["--log-level"; "bogus"] = Raise (SystemExit 2) /\
  get_arguments ["-h"] = Raise (SystemExit 0) /\
  ~ (forall args, exists ns, get_arguments args = Ret ns).
Proof.
  split; [ reflexivity | split; [ reflexivity | ] ].
  intros H. destruct (H ["--log-level"; "bogus"]) as [ns Hns].
  discriminate Hns.
Qed.

Lemma get_arguments_parser (args : list string) :
  get_arguments args = Argparse.parse_args the_parser args.
Proof. reflexivity. Qed.

Lemma known_lookup (s : string) (a : Argparse.Action) :
  dict_get (Argparse.option_string_actions the_parser) s = Some a ->
  known_action a.
Proof.
  unfold known_action. cbn.
  repeat match goal with
         | |- context [if ?b then _ else _] => destruct b
         end;
    intros H; inversion H; auto.
Qed.

Lemma known_option_tuples (s : string) (a : Argparse.Action)
    (o : string) (e : option string) :
  In (Some a, o, e)
     (Argparse.get_option_tuples (Argparse.option_string_actions the_parser) s) ->
  known_action a.
Proof.
  unfold Argparse.get_option_tuples.
  destruct s as [| c0 [| c1 rest]]; try contradiction.
  destruct (Argparse.is_prefix_char c0 && Argparse.is_prefix_char c1).
  - destruct (Argparse.split_eq _) as [[x y] |]; intros H;
      apply in_flat_map in H; destruct H as [oa [Hoa H]];
      destruct (String.prefix _ _); try contradiction;
      destruct H as [H | []]; inversion H; subst;
      cbn in Hoa; unfold known_action; intuition (subst; auto).
  - destruct (Argparse.is_prefix_char c0 && negb (Argparse.is_prefix_char c1));
      try contradiction.
    intros H. apply in_flat_map in H. destruct H as [oa [Hoa H]].
    destruct (String.eqb _ _); [ | destruct (String.prefix _ _) ];
      try contradiction;
      destruct H as [H | []]; inversion H; subst;
      cbn in Hoa; unfold known_action; intuition (subst; auto).
Qed.

Lemma parse_optional_known (s : string) :
  parser_outcome
    (fun t => match t with
              | Some (Some a, _, _) => known_action a
              | _ => True
              end)
    (Argparse.parse_optional (Argparse.option_string_actions the_parser) s).
Proof.
  unfold Argparse.parse_optional.
  destruct s as [| c0 tail]; [ exact I | ].
  destruct (negb (Argparse.is_prefix_char c0)); [ exact I | ].
  destruct (dict_get _ (String c0 tail)) as [a |] eqn:Hl.
  { unfold parser_outcome. eapply known_lookup; eassumption. }
  destruct tail as [| c1 tail]; [ exact I | ].
  assert (Htuples :
    parser_outcome
      (fun t => match t with
                | Some (Some a, _, _) => known_action a
                | _ => True
                end)
      match Argparse.get_option_tuples
              (Argparse.option_string_actions the_parser)
              (String c0 (String c1 tail)) with
      | _ :: _ :: _ => Raise (SystemExit 2)
      | [t] => Ret (Some t)
      | [] =>
          if Argparse.negative_number_like (String c0 (String c1 tail))
             && negb (Argparse.has_negative_number_optionals
                        (Argparse.option_string_actions the_parser))
          then Ret None
          else if Argparse.contains_char " "%char (String c0 (String c1 tail))
          then Ret None
          else Ret (Some (None, String c0 (String c1 tail), None))
      end).
  { destruct (Argparse.get_option_tuples _ _)
      as [| [[[a |] o'] e'] [| t2 l]] eqn:Ht; cbv beta iota.
    - destruct (_ && _); [ exact I | ].
      destruct (Argparse.contains_char _ _); exact I.
    - unfold parser_outcome.
      eapply (known_option_tuples _ a o' e'). rewrite Ht. now left.
    - right. reflexivity.
    - exact I.
    - right. reflexivity. }
  destruct (Argparse.split_eq (String c0 (String c1 tail))) as [[o e] |].
  - destruct (dict_get _ o) as [a |] eqn:Ho; [ | exact Htuples ].
    unfold parser_outcome. eapply known_lookup; eassumption.
  - exact Htuples.
Qed.

Lemma classify_known (args : list string) :
  parser_outcome (Forall known_token)
    (Argparse.classify (Argparse.option_string_actions the_parser) args).
Proof.
  induction args as [| s args IH]; cbn [Argparse.classify].
  - constructor.
  - destruct (s =? "--").
    + cbn. constructor; [ exact I | ].
      unfold Argparse.classify_rest. apply Forall_forall.
      intros tok Htok. apply in_map_iff in Htok.
      destruct Htok as [x [<- _]]. exact I.
    + pose proof (parse_optional_known s) as Hs.
      destruct (Argparse.parse_optional _ s) as [t | [] |]; cbn in Hs |- *;
        try contradiction; try exact Hs.
      destruct (Argparse.classify _ args) as [toks | [] |]; cbn in IH |- *;
        try contradiction; try exact IH.
      constructor; [ | exact IH ].
      unfold known_token. cbn. destruct t as [[[[a |] o] e] |]; auto.
Qed.

Lemma str_in_In (x : string) (l : list string) : str_in x l = true -> In x l.
Proof.
  unfold str_in. intros H. apply existsb_exists in H.
  destruct H as [y [Hy Hxy]]. apply String.eqb_eq in Hxy. now subst.
Qed.

Lemma take_action_known (ns : Argparse.Namespace) (a : Argparse.Action)
    (arg_strings : list string) :
  known_tuple (a, arg_strings) ->
  arguments_namespace ns ->
  parser_outcome arguments_namespace (Argparse.take_action ns a arg_strings).
Proof.
  intros [Ha Hlen] (cf & ll & -> & Hcf & Hll). cbn in Ha, Hlen.
  assert (Hargs : Argparse.remove_first_dashdash arg_strings = [] \/
                  exists x, Argparse.remove_first_dashdash arg_strings = [x]).
  { destruct arg_strings as [| x [| y l]]; cbn in Hlen |- *; try lia.
    - now left.
    - destruct (x =? "--"); [ now left | right; now exists x ]. }
  unfold Argparse.take_action, Argparse.get_values.
  destruct Ha as [-> | [-> | ->]];
    destruct Hargs as [Hr | [x Hr]]; rewrite Hr;
    cbn -[str_in log_level_choices].
  - now left.
  - now left.
  - exists (Argparse.PyList []), ll. repeat split; auto. now right.
  - exists (Argparse.PyStr x), ll. repeat split; auto. left. now exists x.
  - exists cf, (Argparse.PyList []). repeat split; auto. now right.
  - destruct (str_in x log_level_choices) eqn:Hx; cbn.
    + exists cf, (Argparse.PyStr x). repeat split; auto.
      left. exists x. split; [ reflexivity | now apply str_in_In ].
    + now right.
Qed.

Lemma take_actions_known (tuples : list (Argparse.Action * list string)) :
  forall ns,
    Forall known_tuple tuples ->
    arguments_namespace ns ->
    parser_outcome arguments_namespace (Argparse.take_actions ns tuples).
Proof.
  induction tuples as [| [a arg_strings] tuples IH]; intros ns Hall Hns.
  - exact Hns.
  - inversion Hall as [| t l Ht Hl]; subst. cbn [Argparse.take_actions].
    pose proof (take_action_known ns a arg_strings Ht Hns) as Hstep.
    destruct (Argparse.take_action ns a arg_strings) as [ns' | [] |];
      cbn in Hstep |- *; try contradiction; try exact Hstep.
    now apply IH.
Qed.

Lemma match_following_known (a : Argparse.Action) (next : option string) :
  parser_outcome (fun r => length (fst r) <= 1)
    (Argparse.match_following a next).
Proof.
  unfold Argparse.match_following.
  destruct (Argparse.action a); [ destruct next | ]; cbn; auto.
Qed.

Lemma consume_explicit_known (explicit_arg : string) :
  forall (a : Argparse.Action) (option_string : string) (next : option string),
    known_action a ->
    parser_outcome (fun r => Forall known_tuple (fst r))
      (Argparse.consume_explicit (Argparse.option_string_actions the_parser)
         a option_string explicit_arg next).
Proof.
  induction explicit_arg as [| c rest IH]; intros a o next Ha.
  - destruct Ha as [-> | [-> | ->]]; cbn.
    + now right.
    + constructor; [ split; cbn; unfold known_action; auto | constructor ].
    + constructor; [ split; cbn; unfold known_action; auto | constructor ].
  - cbn [Argparse.consume_explicit].
    destruct (Argparse.action a) eqn:Hact.
    + cbn. constructor; [ split; cbn; auto | constructor ].
    + destruct (Argparse.second_is_prefix_char o); [ now right | ].
      cbv zeta.
      destruct (dict_get _ (String "-" (String c EmptyString))) as [a' |] eqn:Hl;
        [ | now right ].
      pose proof (known_lookup _ _ Hl) as Ha'.
      destruct rest as [| c' rest'].
      * pose proof (match_following_known a' next) as Hm.
        destruct (Argparse.match_following a' next) as [[args took] | [] |];
          cbn in Hm |- *; try contradiction; try exact Hm.
        constructor; [ split; cbn; auto | ].
        constructor; [ split; cbn; auto | constructor ].
      * specialize (IH a' (String "-" (String c EmptyString)) next Ha').
        destruct (Argparse.consume_explicit _ a' _ (String c' rest') next)
          as [[tuples took] | [] |];
          cbn in IH |- *; try contradiction; try exact IH.
        constructor; [ split; cbn; auto | exact IH ].
Qed.

Lemma consume_known (n : nat) :
  forall (toks : list (string * Argparse.arg_class))
         (ns : Argparse.Namespace) (extras : list string),
    length toks <= n ->
    Forall known_token toks ->
    arguments_namespace ns ->
    parser_outcome (fun r => arguments_namespace (fst r))
      (Argparse.consume (Argparse.option_string_actions the_parser)
         toks ns extras).
Proof.
  induction n as [| n IH]; intros toks ns extras Hlen Hall Hns.
  - destruct toks; [ exact Hns | cbn in Hlen; lia ].
  - destruct toks as [| [s cls] rest]; [ exact Hns | ].
    cbn in Hlen. inversion Hall as [| t l Htok Hrest]; subst.
    assert (Hskip : forall ex,
               parser_outcome (fun r => arguments_namespace (fst r))
                 (Argparse.consume (Argparse.option_string_actions the_parser)
                    rest ns ex)).
    { intros ex. apply IH; [ lia | exact Hrest | exact Hns ]. }
    destruct cls as [| | [[[a |] o] e]]; cbn [Argparse.consume];
      try apply Hskip.
    unfold known_token in Htok. cbn in Htok.
    assert (Htuples :
      parser_outcome (fun r => Forall known_tuple (fst r))
        match e with
        | Some e0 =>
            Argparse.consume_explicit
              (Argparse.option_string_actions the_parser) a o e0
              (Argparse.next_argument rest)
        | None =>
            match Argparse.match_following a (Argparse.next_argument rest) with
            | Ret (args, took) => Ret ([(a, args)], took)
            | Raise e0 => Raise e0
            | OutOfFuel => OutOfFuel
            end
        end).
    { destruct e as [e0 |].
      - now apply consume_explicit_known.
      - pose proof (match_following_known a (Argparse.next_argument rest)) as Hm.
        destruct (Argparse.match_following a _) as [[args took] | [] |];
          cbn in Hm |- *; try contradiction; try exact Hm.
        constructor; [ split; cbn; auto | constructor ]. }
    cbv zeta.
    destruct (match e with Some _ => _ | None => _ end)
      as [[tuples took] | [] |]; cbn in Htuples |- *;
      try contradiction; try exact Htuples.
    pose proof (take_actions_known tuples ns Htuples Hns) as Hns'.
    destruct (Argparse.take_actions ns tuples) as [ns' | [] |];
      cbn in Hns' |- *; try contradiction; try exact Hns'.
    destruct rest as [| tok rest']; [ exact Hns' | ].
    destruct took.
    + apply IH; [ cbn in Hlen; lia | now inversion Hrest | exact Hns' ].
    + apply IH; [ cbn in Hlen |- *; lia | exact Hrest | exact Hns' ].
Qed.

(** Every outcome of the parser of [get_arguments] is a namespace of
    the two attributes or an exit with status 0 or 2. *)
Lemma parse_args_outcome (args : list string) :
  parser_outcome arguments_namespace (Argparse.parse_args the_parser args).
Proof.
  unfold Argparse.parse_args.
  pose proof (classify_known args) as Hc.
  destruct (Argparse.classify _ args) as [toks | [] |]; cbn in Hc |- *;
    try contradiction; try exact Hc.
  assert (Hd : arguments_namespace (Argparse.defaults the_parser [])).
  { cbn. eexists _, _. split; [ reflexivity | ]. split; left; eexists; eauto.
    split; [ reflexivity | ]. cbn. auto. }
  pose proof (consume_known (length toks) toks _ [] (le_n _) Hc Hd) as Hk.
  destruct (Argparse.consume _ toks _ []) as [[ns [| x extras]] | [] |];
    cbn in Hk |- *; try contradiction; auto.
Qed.

(** C6, as amended.  [get_arguments] declares, next to the [-h]/[--help]
    that argparse adds, the two flags [--config-file]/[-c] with default
    the empty string and [--log-level]/[-L] with default ["info"] and the five
    choices; without arguments it returns the two defaults.  On every
    command line it either returns a namespace that holds exactly
    [config_file] and [log_level], a stored level being one of the five
    choices (or the empty list that argparse leaves for the explicit
    argument [--]), or it ends the process: with status 0 for the help,
    with status 2 for a command line it rejects. *)
Theorem get_arguments_outcomes (args : list string) :
  get_arguments [] =
    Ret [("config_file", Argparse.PyStr EmptyString);
         ("log_level", Argparse.PyStr "info")] /\
  get_arguments args = Argparse.parse_args the_parser args /\
  ((exists ns, get_arguments args = Ret ns /\ arguments_namespace ns) \/
   get_arguments args = Raise (SystemExit 0) \/
   get_arguments args = Raise (SystemExit 2)).
Proof.
  split; [ reflexivity | split; [ reflexivity | ] ].
  change (get_arguments args) with (Argparse.parse_args the_parser args).
  pose proof (parse_args_outcome args) as H.
  destruct (Argparse.parse_args the_parser args) as [ns | [] |];
    cbn in H; try contradiction.
  - left. now exists ns.
  - destruct H as [-> | ->]; auto.
Qed.

(** Command lines that are accepted: the two flags in their long, short,
    joined and abbreviated forms. *)
Example get_arguments_accepts :
  get_arguments ["--config-file"; "/etc/powermole.json"; "-L"; "debug"] =
    Ret [("config_file", Argparse.PyStr "/etc/powermole.json");
         ("log_level", Argparse.PyStr "debug")] /\
  get_arguments ["-c/etc/powermole.json"; "--log=error"] =
    Ret [("config_file", Argparse.PyStr "/etc/powermole.json");
         ("log_level", Argparse.PyStr "error")] /\
  get_arguments ["--log-level=--"] =
    Ret [("config_file", Argparse.PyStr EmptyString);
         ("log_level", Argparse.PyList [])].
Proof. repeat split. Qed.

(** Command lines that are rejected: an unknown option, a missing
    value, a leftover argument. *)
Example get_arguments_rejects :
  get_arguments ["--verbose"] = Raise (SystemExit 2) /\
  get_arguments ["-c"] = Raise (SystemExit 2) /\
  get_arguments ["config.json"] = Raise (SystemExit 2) /\
  get_arguments ["--"] = Raise (SystemExit 2).
Proof. repeat split. Qed.

(** A namespace that parsing returns lets [main] read [config_file];
    [log_level] can be upper-cased unless it is the empty list. *)
Lemma arguments_namespace_attributes (ns : Argparse.Namespace) :
  arguments_namespace ns ->
  exists cf ll,
    dict_get ns "config_file" = Some cf /\
    dict_get ns "log_level" = Some ll /\
    stored_path cf /\ stored_level ll.
Proof.
  intros (cf & ll & -> & Hcf & Hll). exists cf, ll. cbn. auto.
Qed.

(** What escapes [get_arguments] escapes [main] before anything else
    has happened. *)
Lemma main_exits_with_get_arguments (E : Env) (fuel : nat) (e : exn)
    (s : State) :
  get_arguments (argv E) = Raise e ->
  main E fuel s = (Raise e, s).
Proof. intros H. unfold main, bind, lift. rewrite H. reflexivity. Qed.

(** The empty list that [--log-level=--] leaves has no [upper]. *)
Lemma main_on_empty_list_level (E : Env) (fuel : nat)
    (ns : Argparse.Namespace) (s : State) :
  get_arguments (argv E) = Ret ns ->
  dict_get ns "log_level" = Some (Argparse.PyList []) ->
  main E fuel s = (Raise (AttributeError "upper"), s).
Proof.
  intros H Hl. unfold main, bind, lift, getattr. rewrite H, Hl. reflexivity.
Qed.

(** In every other case in which [get_arguments] returns, [main] goes
    on to load the configuration: [parsed_arguments] holds. *)
Lemma parsed_arguments_of_namespace (E : Env) (ns : Argparse.Namespace) :
  get_arguments (argv E) = Ret ns ->
  (exists level path, parsed_arguments E level path) \/
  dict_get ns "log_level" = Some (Argparse.PyList []).
Proof.
  intros Hns.
  pose proof (parse_args_outcome (argv E)) as Hok.
  change (Argparse.parse_args the_parser (argv E))
    with (get_arguments (argv E)) in Hok.
  rewrite Hns in Hok. cbn in Hok.
  destruct (arguments_namespace_attributes ns Hok)
    as (cf & ll & Hcf & Hll & _ & [(c & -> & _) | ->]).
  - left. exists c, cf, ns. auto.
  - now right.
Qed.

(** ** Text *)

Lemma split_on_not_nil (sep : N) (s : str) : split_on sep s <> [].
Proof.
  destruct s as [| c s]; simpl; [ discriminate | ].
  destruct (c =? sep)%N; [ discriminate | ].
  destruct (split_on sep s); discriminate.
Qed.

(** Joining the pieces with the separator gives the text back. *)
Lemma join_split_on (sep : N) (s : str) : join sep (split_on sep s) = s.
Proof.
  induction s as [| c s IH]; [ reflexivity | ].
  simpl. destruct (N.eqb_spec c sep) as [-> | Hc].
  - pose proof (split_on_not_nil sep s) as Hne.
    destruct (split_on sep s) as [| l ls]; [ contradiction | ].
    simpl in *. now rewrite IH.
  - pose proof (split_on_not_nil sep s) as Hne.
    destruct (split_on sep s) as [| l ls]; [ contradiction | ].
    simpl in *. destruct ls; simpl in *; now rewrite <- IH.
Qed.

(** No piece holds the separator. *)
Lemma split_on_no_sep (sep : N) (s : str) :
  Forall (fun l => ~ In sep l) (split_on sep s).
Proof.
  induction s as [| c s IH]; simpl.
  - constructor; [ tauto | constructor ].
  - destruct (N.eqb_spec c sep) as [-> | Hc].
    + constructor; [ tauto | exact IH ].
    + destruct (split_on sep s) as [| l ls]; simpl.
      * constructor; [ simpl; intuition congruence | constructor ].
      * inversion IH; subst. constructor; [ | assumption ].
        simpl. intuition congruence.
Qed.

(** There is one piece more than there are separators. *)
Lemma split_on_length (sep : N) (s : str) :
  length (split_on sep s) = S (count_occ N.eq_dec s sep).
Proof.
  induction s as [| c s IH]; [ reflexivity | ].
  simpl. destruct (N.eqb_spec c sep) as [-> | Hc].
  - destruct (N.eq_dec sep sep); [ | contradiction ]. simpl. now rewrite IH.
  - destruct (N.eq_dec c sep); [ contradiction | ].
    pose proof (split_on_not_nil sep s) as Hne.
    destruct (split_on sep s) as [| l ls]; [ contradiction | ].
    simpl in *. exact IH.
Qed.

(** ASCII bytes decode to themselves. *)
Lemma utf8_decode_ascii (bs : list Byte.byte) :
  Forall (fun b => (Byte.to_N b < 128)%N) bs ->
  utf8_decode bs = Some (map Byte.to_N bs).
Proof.
  induction 1 as [| b bs Hb Hbs IH]; [ reflexivity | ].
  cbn [utf8_decode map]. apply N.ltb_lt in Hb. rewrite Hb, IH. reflexivity.
Qed.

(** Two, three and four byte forms; overlong forms, surrogates, values
    above U+10FFFF and truncated forms are errors. *)
Example utf8_decode_examples :
  utf8_decode [Byte.xc3; Byte.xa9] = Some [233%N] /\
  utf8_decode [Byte.xe2; Byte.x82; Byte.xac] = Some [8364%N] /\
  utf8_decode [Byte.xf0; Byte.x9f; Byte.x98; Byte.x80] = Some [128512%N] /\
  utf8_decode [Byte.xc0; Byte.x80] = None /\
  utf8_decode [Byte.xe0; Byte.x80; Byte.x80] = None /\
  utf8_decode [Byte.xed; Byte.xa0; Byte.x80] = None /\
  utf8_decode [Byte.xf4; Byte.x90; Byte.x80; Byte.x80] = None /\
  utf8_decode [Byte.x68; Byte.xe2; Byte.x82] = None /\
  utf8_decode [Byte.xff] = None.
Proof. repeat split. Qed.

Example split_on_examples :
  split_on newline (ascii_str EmptyString) = [[]] /\
  split_on newline [104; 105; 10]%N = [[104; 105]; []]%N /\
  split_on newline [97; 10; 10; 98]%N = [[97]; []; [98]]%N.
Proof. repeat split. Qed.

(** ** A logic of runs

    [run_spec m R X Q]: from every state [m] adds events that satisfy
    [Q] to the trace, a value it returns satisfies [R] and an exception
    it raises satisfies [X]. *)

Lemma rs_ret {A} (a : A) (R : A -> Prop) X Q : R a -> run_spec (ret a) R X Q.
Proof. intros H s. exists []. cbn. rewrite app_nil_r. auto. Qed.

Lemma rs_raise {A} (e : exn) (R : A -> Prop) (X : exn -> Prop) Q :
  X e -> run_spec (raise e) R X Q.
Proof. intros H s. exists []. cbn. rewrite app_nil_r. auto. Qed.

Lemma rs_lift {A} (o : outcome A) (R : A -> Prop) (X : exn -> Prop) Q :
  match o with Ret a => R a | Raise e => X e | OutOfFuel => True end ->
  run_spec (lift o) R X Q.
Proof. intros H s. exists []. cbn. rewrite app_nil_r. auto. Qed.

Lemma rs_emit (e : event) (R : unit -> Prop) X (Q : event -> bool) :
  Q e = true -> R tt -> run_spec (emit e) R X Q.
Proof. intros HQ HR s. exists [e]. cbn. rewrite HQ. auto. Qed.

Lemma rs_bind {A B} (m : M A) (k : A -> M B) (R1 : A -> Prop)
    (R : B -> Prop) (X : exn -> Prop) Q :
  run_spec m R1 X Q ->
  (forall a, R1 a -> run_spec (k a) R X Q) ->
  run_spec (bind m k) R X Q.
Proof.
  intros Hm Hk s. unfold bind.
  destruct (Hm s) as (evs1 & Ht1 & HQ1 & Hr1).
  destruct (m s) as [[a | e |] s1]; cbn in *.
  - destruct (Hk a Hr1 s1) as (evs2 & Ht2 & HQ2 & Hr2).
    exists (evs1 ++ evs2). rewrite Ht2, Ht1, app_assoc, forallb_app, HQ1, HQ2.
    auto.
  - exists evs1. auto.
  - exists evs1. auto.
Qed.

Lemma rs_weaken {A} (m : M A) (R R' : A -> Prop) (X X' : exn -> Prop)
    (Q Q' : event -> bool) :
  run_spec m R X Q ->
  (forall a, R a -> R' a) -> (forall e, X e -> X' e) ->
  (forall e, Q e = true -> Q' e = true) ->
  run_spec m R' X' Q'.
Proof.
  intros Hm HR HX HQ s. destruct (Hm s) as (evs & Ht & Hq & Hr).
  exists evs. split; [ exact Ht | split ].
  - rewrite forallb_forall in *. auto.
  - destruct (fst (m s)); auto.
Qed.

Lemma rs_try {A} (body : M A) (handler : exn -> option (M A))
    (R : A -> Prop) (X1 X : exn -> Prop) Q :
  run_spec body R X1 Q ->
  (forall e, X1 e ->
     match handler e with
     | Some h => run_spec h R X Q
     | None => X e
     end) ->
  run_spec (try_except body handler) R X Q.
Proof.
  intros Hb Hh s. unfold try_except.
  destruct (Hb s) as (evs1 & Ht1 & HQ1 & Hr1).
  destruct (body s) as [[a | e |] s1]; cbn in *.
  - exists evs1. auto.
  - specialize (Hh e Hr1). destruct (handler e) as [h |].
    + destruct (Hh s1) as (evs2 & Ht2 & HQ2 & Hr2).
      exists (evs1 ++ evs2). rewrite Ht2, Ht1, app_assoc, forallb_app, HQ1, HQ2.
      auto.
    + exists evs1. auto.
  - exists evs1. auto.
Qed.

Lemma rs_with {A} (enter exit : event) (body : M A) (R : A -> Prop) X
    (Q : event -> bool) :
  Q enter = true -> Q exit = true ->
  run_spec body R X Q ->
  run_spec (with_ enter exit body) R X Q.
Proof.
  intros He Hx Hb s. unfold with_, bind, emit. cbn.
  match goal with
  | |- context [body ?s0] =>
      destruct (Hb s0) as (evs & Ht & HQ & Hr);
      destruct (body s0) as [[a | e |] s1]
  end; cbn in *.
  - exists (enter :: evs ++ [exit]). rewrite Ht. cbn.
    rewrite He, forallb_app, HQ. cbn. rewrite Hx, <- !app_assoc. auto.
  - exists (enter :: evs ++ [exit]). rewrite Ht. cbn.
    rewrite He, forallb_app, HQ. cbn. rewrite Hx, <- !app_assoc. auto.
  - exists (enter :: evs). rewrite Ht. cbn.
    rewrite He, HQ, <- !app_assoc. auto.
Qed.

Lemma rs_while (fuel : nat) (body : M unit) (R : unit -> Prop) X Q :
  run_spec body (fun _ => True) X Q ->
  run_spec (while_true fuel body) R X Q.
Proof.
  intros Hb. induction fuel as [| fuel IH].
  - apply rs_lift. exact I.
  - cbn [while_true]. eapply rs_bind; [ exact Hb | intros _ _; exact IH ].
Qed.

Lemma rs_for_each {A} (l : list A) (f : A -> M unit) (R : unit -> Prop) X Q :
  (forall x, run_spec (f x) (fun _ => True) X Q) -> R tt ->
  run_spec (for_each l f) R X Q.
Proof.
  intros Hf HR. induction l as [| x l IH]; cbn [for_each].
  - now apply rs_ret.
  - eapply rs_bind; [ apply Hf | intros _ _; exact IH ].
Qed.

Lemma rs_input (prompt : string) (R : str -> Prop) (X : exn -> Prop) Q :
  Q (EvInput prompt) = true -> X EOFError -> X KeyboardInterrupt ->
  (forall l, R l) ->
  run_spec (input prompt) R X Q.
Proof.
  intros HQ He Hk HR s. exists [EvInput prompt].
  unfold input, bind, emit. cbn. rewrite HQ.
  destruct (stdin s) as [| [l |] rest]; cbn; auto.
Qed.

Lemma rs_sleep (seconds : Z) (R : unit -> Prop) (X : exn -> Prop) Q :
  Q (EvSleep seconds) = true -> X KeyboardInterrupt -> R tt ->
  run_spec (sleep seconds) R X Q.
Proof.
  intros HQ Hk HR s. unfold sleep, emit.
  destruct (interrupt_after s) as [[| n] |]; cbn.
  - exists []. rewrite app_nil_r. auto.
  - exists [EvSleep seconds]. cbn. rewrite HQ. auto.
  - exists [EvSleep seconds]. cbn. rewrite HQ. auto.
Qed.

Lemma rs_local {A} (name : string) (v : option A) (R : A -> Prop)
    (X : exn -> Prop) Q :
  (forall a, v = Some a -> R a) ->
  (v = None -> X (UnboundLocalError name)) ->
  run_spec (local name v) R X Q.
Proof.
  intros HR HX. destruct v as [a |]; cbn.
  - apply rs_ret. auto.
  - apply rs_raise. auto.
Qed.

Lemma rs_subscript {V} (d : dict V) (key : string) (R : V -> Prop)
    (X : exn -> Prop) Q :
  (forall v, dict_get d key = Some v -> R v) ->
  (dict_get d key = None -> X (KeyError key)) ->
  run_spec (subscript d key) R X Q.
Proof.
  intros HR HX. unfold subscript. destruct (dict_get d key) as [v |].
  - apply rs_ret. auto.
  - apply rs_raise. auto.
Qed.

(** ** What a session does *)

Lemma rs_seq {A B} (m : M A) (k : A -> M B) (R : B -> Prop)
    (X : exn -> Prop) Q :
  run_spec m (fun _ => True) X Q ->
  (forall a, run_spec (k a) R X Q) ->
  run_spec (bind m k) R X Q.
Proof. intros Hm Hk. eapply rs_bind; [ exact Hm | intros a _; apply Hk ]. Qed.

Lemma rs_bind_ret {A B} (a : A) (k : A -> M B) (R : B -> Prop)
    (X : exn -> Prop) Q :
  run_spec (k a) R X Q -> run_spec (bind (ret a) k) R X Q.
Proof. intros H. exact H. Qed.

Lemma interactive_body_spec (E : Env) (l : Locals) (ports : dict Z) :
  assistant l = Some (InteractiveInstructor ports) ->
  run_spec (interactive_body E l) (fun _ => True)
    (fun e => e = KeyboardInterrupt \/ e = EOFError \/ e = UnicodeDecodeError)
    (inner_allowed "INTERACTIVE").
Proof.
  intros Ha. unfold interactive_body. rewrite Ha.
  apply rs_seq; [ apply rs_input; auto | intros command ].
  cbn [local]. apply rs_bind_ret. cbn [exec_command].
  apply rs_seq.
  { apply rs_seq; [ now apply rs_emit | intros _; now apply rs_ret ]. }
  intros raw. unfold decode.
  destruct (utf8_decode raw) as [text |].
  - apply rs_bind_ret. apply rs_for_each; [ | exact I ].
    intros line. now apply rs_emit.
  - apply (rs_bind _ _ (fun _ => False)); [ apply rs_raise; auto | ].
    intros a [].
Qed.

Lemma interactive_loop_spec (E : Env) (l : Locals) (ports : dict Z)
    (fuel : nat) :
  assistant l = Some (InteractiveInstructor ports) ->
  run_spec (interactive_loop E l fuel) (fun _ => False)
    (fun e => e = SystemExit 0 \/ e = EOFError \/ e = UnicodeDecodeError)
    (inner_allowed "INTERACTIVE").
Proof.
  intros Ha. unfold interactive_loop.
  eapply rs_try.
  - apply rs_while. eapply interactive_body_spec; exact Ha.
  - intros e [-> | [-> | ->]]; cbn; auto.
    apply rs_raise. auto.
Qed.

Lemma mode_branch_spec (E : Env) (config : Configuration) (l : Locals)
    (fuel : nat) :
  dispatched config l ->
  run_spec (mode_branch E config l fuel)
    (fun _ => mode config = "FOR" \/ mode config = "TOR")
    (session_raises E config) (inner_allowed (mode config)).
Proof.
  intros [Hvalid (t & b & i & -> & Hi)].
  unfold mode_branch.
  destruct (in_valid_modes _ Hvalid) as [Hm | [Hm | [Hm | Hm]]];
    rewrite Hm in *; cbn [String.eqb Ascii.eqb Bool.eqb].
  - apply rs_seq; [ now apply rs_emit | intros _ ].
    apply rs_emit; auto.
  - change (subscript GROUP_PORTS "local_port_proxy")
      with (@ret Z LOCAL_PORT_PROXY).
    apply rs_bind_ret.
    apply rs_seq; [ now apply rs_emit | intros _ ].
    apply rs_emit; auto.
  - destruct i; try discriminate Hi.
    cbn [local assistant bound]. apply rs_bind_ret. cbn [transfer].
    apply rs_seq; [ now apply rs_emit | intros _ ].
    apply rs_raise. cbn. auto.
  - apply rs_seq; [ now apply rs_emit | intros _ ].
    apply rs_seq; [ now apply rs_emit | intros _ ].
    apply rs_seq; [ now apply rs_emit | intros _ ].
    destruct i; try discriminate Hi.
    eapply rs_weaken; [ eapply interactive_loop_spec; reflexivity | | | ];
      cbn; auto.
    + contradiction.
    + intros e [-> | [-> | ->]]; cbn; auto.
Qed.

Lemma application_branch_spec (E : Env) (config : Configuration) (fuel : nat) :
  mode config = "FOR" \/ mode config = "TOR" ->
  run_spec (application_branch config fuel)
    (fun _ => truthy (application config) = None)
    (session_raises E config) (inner_allowed (mode config)).
Proof.
  intros Hm.
  assert (HQ : forall e,
             inner_allowed "FOR" e = true -> inner_allowed (mode config) e = true).
  { intros e. destruct Hm as [-> | ->]; destruct e as [| [] | | | | | | | | | | | | | | | | | | |];
      cbn; auto. }
  unfold application_branch.
  destruct (truthy (application config)) as [app |] eqn:Happ;
    [ | now apply rs_ret ].
  apply rs_seq; [ apply rs_emit; auto | intros _ ].
  apply rs_seq.
  { apply rs_subscript; [ auto | ]. intros Hn. cbn. right. split; [ exact Hm | ].
    exists app. auto. }
  intros binary_name. apply rs_seq.
  { apply rs_subscript; [ auto | ]. intros Hn. cbn. right. split; [ exact Hm | ].
    exists app. auto. }
  intros binary_location.
  apply rs_seq; [ apply rs_emit; auto | intros _ ].
  eapply rs_try.
  - apply rs_while. apply (rs_sleep 5 _ (fun e => e = KeyboardInterrupt)); auto.
  - intros e ->. cbn.
    apply rs_seq; [ apply rs_emit; auto | intros _ ].
    apply rs_raise. exact Hm.
Qed.

Lemma idle_loop_spec (E : Env) (config : Configuration) (l : Locals)
    (fuel : nat) :
  mode config = "FOR" \/ mode config = "TOR" ->
  run_spec (idle_loop l fuel) (fun _ => False)
    (session_raises E config) (inner_allowed (mode config)).
Proof.
  intros Hm. rewrite idle_loop_is_sleep_loop.
  apply rs_while. apply rs_sleep; auto.
  destruct Hm as [-> | ->]; reflexivity.
Qed.

(** The body of the heartbeat scope does not return: it raises or keeps
    running. *)
Lemma heartbeat_body_spec (E : Env) (config : Configuration) (l : Locals)
    (fuel : nat) :
  dispatched config l ->
  run_spec (heartbeat_body E config l fuel) (fun _ => False)
    (session_raises E config) (inner_allowed (mode config)).
Proof.
  intros Hl. unfold heartbeat_body.
  eapply rs_bind; [ apply mode_branch_spec; exact Hl | ].
  intros a Hm. cbn beta in Hm.
  eapply rs_bind; [ apply application_branch_spec; exact Hm | intros _ _ ].
  apply idle_loop_spec; exact Hm.
Qed.

Lemma allowed_inner (m : string) (e : event) :
  inner_allowed m e = true -> allowed m e = true.
Proof. destruct e; cbn; auto. Qed.

(** A constructor call: the event, then the object. *)
Lemma rs_new {A B} (e : event) (a : A) (k : A -> M B) (R : B -> Prop)
    (X : exn -> Prop) (Q : event -> bool) :
  Q e = true -> run_spec (k a) R X Q ->
  run_spec (bind (bind (emit e) (fun _ => ret a)) k) R X Q.
Proof.
  intros HQ Hk. apply (rs_bind _ _ (fun x => x = a)).
  - apply rs_seq; [ now apply rs_emit | intros _; now apply rs_ret ].
  - intros x ->. exact Hk.
Qed.

Lemma construct_for_mode_spec (E : Env) (config : Configuration) :
  run_spec (construct_for_mode config)
    (fun l => dispatched config l \/
              (l = unbound /\ ~ In (mode config) valid_modes))
    (session_raises E config) (allowed (mode config)).
Proof.
  unfold construct_for_mode, new_Tunnel, new_BootstrapAgent, new_Instructor.
  destruct (mode_cases (mode config))
    as [Hm | [Hm | [Hm | [Hm | (H1 & H2 & H3 & H4)]]]].
  1,3,4: rewrite Hm; cbn [String.eqb Ascii.eqb Bool.eqb];
    repeat (apply rs_new; [ reflexivity | ]);
    apply rs_ret; left; (split; [ rewrite Hm; cbn; tauto | ]);
    do 3 eexists; split; [ reflexivity | now rewrite Hm ].
  - rewrite Hm; cbn [String.eqb Ascii.eqb Bool.eqb].
    repeat (apply rs_new; [ reflexivity | ]).
    unfold subscript.
    destruct (dict_get (destination config) "host_ip") as [ip |] eqn:Hip.
    + do 2 apply rs_bind_ret. apply rs_new; [ reflexivity | ].
      apply rs_ret. left. split; [ rewrite Hm; cbn; tauto | ].
      do 3 eexists. split; [ reflexivity | now rewrite Hm ].
    + apply (rs_bind _ _ (fun _ => False)); [ | intros a [] ].
      apply rs_raise. cbn. auto.
  - rewrite H1, H2, H3, H4. unfold discard.
    apply rs_bind_ret. apply rs_ret. right. split; [ reflexivity | ].
    intros Hin. apply in_valid_modes in Hin.
    destruct Hin as [Hm | [Hm | [Hm | Hm]]]; rewrite Hm in *; discriminate.
Qed.

(** A session does not return; every event it adds is one its mode
    allows, and every exception that leaves it is in the table. *)
Lemma session_spec (E : Env) (config : Configuration) (fuel : nat) :
  run_spec (session E config fuel) (fun _ => False)
    (session_raises E config) (allowed (mode config)).
Proof.
  unfold session. apply rs_with; [ reflexivity | reflexivity | ].
  unfold session_body.
  apply rs_seq; [ apply rs_emit; auto | intros _ ].
  apply rs_seq; [ apply rs_emit; auto | intros _ ].
  eapply rs_bind; [ apply construct_for_mode_spec | ].
  intros l [Hl | [-> Hbad]].
  - pose proof Hl as [Hvalid (t & b & i & -> & Hi)].
    cbn [local tunnel bootstrapagent assistant bound].
    do 3 apply rs_bind_ret.
    apply rs_seq.
    { unfold setup_link. apply rs_seq; [ apply rs_emit; auto | intros _ ].
      destruct (setup_link_result E) as [msg |] eqn:Hs;
        [ apply rs_raise; exact Hs | now apply rs_ret ]. }
    intros _. apply rs_bind_ret.
    apply rs_seq; [ apply rs_emit; auto | intros _ ].
    change (subscript GROUP_PORTS "local_port_heartbeat")
      with (@ret Z LOCAL_PORT_HEARTBEAT).
    apply rs_bind_ret.
    apply rs_with; [ reflexivity | reflexivity | ].
    eapply rs_weaken;
      [ apply (heartbeat_body_spec E config _ fuel Hl) | | | ]; auto.
    apply allowed_inner.
  - cbn [local tunnel unbound].
    apply (rs_bind _ _ (fun _ => False)); [ | intros a [] ].
    apply rs_raise. cbn. auto.
Qed.

(** ** The outline of [main] *)

Lemma main_loaded (E : Env) (fuel : nat) (level : string)
    (path : Argparse.pyval) (config : Configuration) (s : State) :
  parsed_arguments E level path ->
  load_configuration E path = Ret config ->
  main E fuel s =
    guarded_session E config fuel
      (log_events (install_record level :: mode_record config) s).
Proof.
  intros Hparsed Hload.
  start_main Hparsed. rewrite Hload. cbn.
  unfold mode_record, log_events, guarded_session, try_except, install_record.
  destruct (mode_cases (mode config))
    as [Hm | [Hm | [Hm | [Hm | (H1 & H2 & H3 & H4)]]]].
  1-4: rewrite Hm; cbn; rewrite <- app_assoc; reflexivity.
  unfold str_in, valid_modes. cbn [existsb].
  rewrite H1, H2, H3, H4. cbn. reflexivity.
Qed.

Lemma guarded_session_spec (E : Env) (config : Configuration) (fuel : nat) :
  run_spec (guarded_session E config fuel) (fun _ => False)
    (main_raises E config)
    (fun e => allowed (mode config) e || is_error_log e).
Proof.
  unfold guarded_session. eapply rs_try.
  - eapply rs_weaken; [ apply (session_spec E config fuel) | | | ].
    + auto.
    + intros e He. exact He.
    + intros e ->. reflexivity.
  - intros e He. destruct e; cbn in *; auto.
    apply rs_seq.
    + apply rs_emit; [ reflexivity | exact I ].
    + intros _. apply rs_raise. cbn. left. split; [ reflexivity | ].
      now exists msg.
Qed.

(** The outline of [main]: the ways it can end before a session starts,
    and the session otherwise. *)
Lemma main_outline (E : Env) (fuel : nat) (s : State) :
  (exists code, (code = 0%Z \/ code = 2%Z) /\
                main E fuel s = (Raise (SystemExit code), s)) \/
  main E fuel s = (Raise (AttributeError "upper"), s) \/
  exists level path,
    parsed_arguments E level path /\ In level log_level_choices /\
    ((load_configuration E path = Raise InvalidConfigurationFile /\
      main E fuel s = (Ret tt, log_events [install_record level] s)) \/
     (exists e, load_configuration E path = Raise e /\
                e <> InvalidConfigurationFile /\
                main E fuel s = (Raise e, log_events [install_record level] s)) \/
     (load_configuration E path = OutOfFuel /\
      main E fuel s = (OutOfFuel, log_events [install_record level] s)) \/
     (exists config,
        load_configuration E path = Ret config /\
        main E fuel s =
          guarded_session E config fuel
            (log_events (install_record level :: mode_record config) s))).
Proof.
  pose proof (parse_args_outcome (argv E)) as Hok.
  change (Argparse.parse_args the_parser (argv E))
    with (get_arguments (argv E)) in Hok.
  destruct (get_arguments (argv E)) as [ns | e |] eqn:Hga; cbn in Hok.
  - destruct (arguments_namespace_attributes ns Hok)
      as (cf & ll & Hcf & Hll & _ & [(c & -> & Hc) | ->]).
    + right. right. exists c, cf.
      assert (Hparsed : parsed_arguments E c cf) by (exists ns; auto).
      split; [ exact Hparsed | split; [ exact Hc | ] ].
      destruct (load_configuration E cf) as [config | e |] eqn:Hload.
      * right. right. right. exists config. split; [ reflexivity | ].
        now apply (main_loaded E fuel c cf config s).
      * assert (He : e = InvalidConfigurationFile \/
                     e <> InvalidConfigurationFile)
          by (destruct e; auto; right; discriminate).
        destruct He as [-> | He].
        -- left. split; [ reflexivity | ].
           unfold main, bind, lift, getattr. rewrite Hga, Hll, Hcf. cbn.
           unfold parse_config_file, try_except, bind, new_Configuration, lift.
           rewrite Hload. reflexivity.
        -- right. left. exists e. split; [ reflexivity | split; [ exact He | ] ].
           unfold main, bind, lift, getattr. rewrite Hga, Hll, Hcf. cbn.
           unfold parse_config_file, try_except, bind, new_Configuration, lift.
           rewrite Hload. destruct e; try reflexivity. contradiction.
      * right. right. left. split; [ reflexivity | ].
        unfold main, bind, lift, getattr. rewrite Hga, Hll, Hcf. cbn.
        unfold parse_config_file, try_except, bind, new_Configuration, lift.
        rewrite Hload. reflexivity.
    + right. left. unfold main, bind, lift, getattr. rewrite Hga, Hll.
      reflexivity.
  - left. destruct e; try contradiction. exists code. split; [ exact Hok | ].
    unfold main, bind, lift. rewrite Hga. reflexivity.
  - contradiction.
Qed.

(** ** The shapes of a session *)

Lemma session_body_heartbeat (E : Env) (config : Configuration) (fuel : nat) :
  session_body E config fuel =
    (emit (EvWriteSshConfigFile LOCAL_PATH_SSH_CFG (gateways config)
             (destination config)) ;;
     emit (EvNewTransferAgent (transferagent_of config)) ;;
     l <- construct_for_mode config ;;
     tn <- local "tunnel" (tunnel l) ;;
     ba <- local "bootstrapagent" (bootstrapagent l) ;;
     ins <- local "assistant" (assistant l) ;;
     setup_link E (transferagent_of config) tn ba ins DEBUG ;;
     _ <- local "tunnel" (tunnel l) ;;
     emit EvPeriodicallyPurgeBuffer ;;
     port <- subscript GROUP_PORTS "local_port_heartbeat" ;;
     with_ (EvHeartbeatEnter port) EvHeartbeatExit
       (heartbeat_body E config l fuel)).
Proof. reflexivity. Qed.

Ltac unfold_to_heartbeat :=
  unfold guarded_session, try_except, session, with_;
  rewrite session_body_heartbeat;
  unfold bind, construct_for_mode, new_Tunnel, new_BootstrapAgent,
    new_Instructor, setup_link, subscript, local, discard, LOGGER_error,
    emit, ret, raise, bind.

(** The trace of a scope: the entry, what the body adds, and the exit
    unless the body is still running. *)
Lemma with_shape {A : Type} (enter exit : event) (body : M A)
    (R : A -> Prop) (X : exn -> Prop) (Q : event -> bool) :
  run_spec body R X Q ->
  forall s,
    exists evs,
      forallb Q evs = true /\
      match fst (with_ enter exit body s) with
      | Ret a => R a
      | Raise e => X e
      | OutOfFuel => True
      end /\
      trace (snd (with_ enter exit body s)) =
        trace s ++ enter :: evs ++
        match fst (with_ enter exit body s) with
        | OutOfFuel => []
        | _ => [exit]
        end.
Proof.
  intros Hb s. unfold with_, bind, emit. cbn.
  match goal with
  | |- context [body ?s0] =>
      destruct (Hb s0) as (evs & Ht & HQ & Hr);
      destruct (body s0) as [[a | e |] s1]
  end; cbn in *; exists evs; rewrite Ht, <- !app_assoc; cbn;
    rewrite ?app_nil_r; auto.
Qed.

Ltac finish_shape E config fuel Hm Hnosetup :=
  match goal with
  | |- context [with_ ?en ?ex (heartbeat_body E config ?l0 fuel) ?s0] =>
      let Hl := fresh "Hl" in
      assert (Hl : dispatched config l0)
        by (split; [ rewrite Hm; cbn; tauto
                   | do 3 eexists; split;
                     [ reflexivity | rewrite Hm; reflexivity ] ]);
      let evs := fresh "evs" in
      let Ht := fresh "Ht" in
      let HQ := fresh "HQ" in
      let Hr := fresh "Hr" in
      destruct (with_shape en ex _ _ _ _
                  (heartbeat_body_spec E config l0 fuel Hl) s0)
        as (evs & HQ & Hr & Ht);
      destruct (with_ en ex (heartbeat_body E config l0 fuel) s0)
        as [[[] | e |] s1];
      cbn in Ht, Hr |- *; try contradiction;
      exists evs;
      (split; [ unfold fits; rewrite Hm; cbn; tauto | ]);
      (split; [ reflexivity | ]);
      (split; [ rewrite Hm in HQ; exact HQ | ])
  end.

Ltac close_shape Hm Hsetup :=
  match goal with
  | Ht : trace _ = _ |- _ =>
      unfold session_opening, tunnel_of, bootstrapagent_of;
      rewrite ?Hm;
      first
        [ split; [ exact I | ];
          rewrite Ht; repeat (first [ rewrite <- app_assoc
                                    | progress cbn [app] ]);
          reflexivity
        | match goal with
          | Hr : session_raises _ _ ?e |- _ =>
              destruct e; cbn in Hr |- *; try congruence;
              (split; [ split; [ assumption | discriminate ] | ]);
              rewrite Ht; repeat (first [ rewrite <- app_assoc
                                        | progress cbn [app] ]);
              reflexivity
          end ]
  end.

Ltac failed_setup Hm Hsetup :=
  split; [ unfold fits; rewrite Hm; cbn; tauto | ];
  split; [ reflexivity | ];
  unfold_to_heartbeat; rewrite Hm; cbn; rewrite ?Hsetup; cbn;
  unfold session_opening, tunnel_of, bootstrapagent_of; rewrite Hm;
  split; [ reflexivity | now rewrite <- !app_assoc ].

(** The four shapes of a session: an unknown mode, a TOR destination
    without address, a failed set-up, or a run of the heartbeat scope. *)
Lemma guarded_session_shape (E : Env) (config : Configuration) (fuel : nat)
    (s : State) :
  let r := guarded_session E config fuel s in
  (~ In (mode config) valid_modes /\
   fst r = Raise (UnboundLocalError "tunnel") /\
   trace (snd r) =
     trace s ++
     [EvStateManagerEnter;
      EvWriteSshConfigFile LOCAL_PATH_SSH_CFG (gateways config)
        (destination config);
      EvNewTransferAgent (transferagent_of config);
      EvStateManagerExit]) \/
  (mode config = "TOR" /\
   dict_get (destination config) "host_ip" = None /\
   fst r = Raise (KeyError "host_ip") /\
   trace (snd r) =
     trace s ++
     [EvStateManagerEnter;
      EvWriteSshConfigFile LOCAL_PATH_SSH_CFG (gateways config)
        (destination config);
      EvNewTransferAgent (transferagent_of config);
      EvNewTunnel (tunnel_of config None);
      EvNewBootstrapAgent (bootstrapagent_of (tunnel_of config None));
      EvStateManagerExit]) \/
  (exists tn ins msg,
     fits config tn ins /\
     setup_link_result E = Some msg /\
     fst r = Raise (SystemExit 1) /\
     trace (snd r) =
       trace s ++ session_opening config tn ins ++
       [EvStateManagerExit; EvLog ERROR msg []]) \/
  (exists tn ins evs,
     fits config tn ins /\
     setup_link_result E = None /\
     forallb (inner_allowed (mode config)) evs = true /\
     match fst r with
     | Ret _ => False
     | Raise e => session_raises E config e /\
                  forall msg, e <> SetupFailed msg
     | OutOfFuel => True
     end /\
     trace (snd r) =
       trace s ++ session_opening config tn ins ++
       [EvPeriodicallyPurgeBuffer; EvHeartbeatEnter 33193] ++ evs ++
       match fst r with
       | OutOfFuel => []
       | _ => [EvHeartbeatExit; EvStateManagerExit]
       end).
Proof.
  assert (Hnosetup : forall e, session_raises E config e ->
                     setup_link_result E = None ->
                     forall msg, e <> SetupFailed msg).
  { intros e He Hs msg ->. cbn in He. congruence. }
  cbv zeta.
  assert (Hvalid : ~ In (mode config) valid_modes \/ In (mode config) valid_modes).
  { destruct (mode_cases (mode config))
      as [Hm | [Hm | [Hm | [Hm | (H1 & H2 & H3 & H4)]]]];
      try (right; rewrite Hm; cbn; tauto).
    left. intros Hin. apply in_valid_modes in Hin.
    destruct Hin as [Hm | [Hm | [Hm | Hm]]]; rewrite Hm in *; discriminate. }
  destruct Hvalid as [Hbad | Hvalid].
  { left. split; [ exact Hbad | ].
    destruct (not_in_valid_modes _ Hbad) as (H1 & H2 & H3 & H4).
    unfold_to_heartbeat. rewrite H1, H2, H3, H4. cbn.
    split; [ reflexivity | now rewrite <- !app_assoc ]. }
  right.
  assert (Hip : mode config = "TOR" ->
                dict_get (destination config) "host_ip" = None \/
                exists ip, dict_get (destination config) "host_ip" = Some ip).
  { intros _. destruct (dict_get (destination config) "host_ip") as [ip |];
      [ right; now exists ip | now left ]. }
  destruct (in_valid_modes _ Hvalid) as [Hm | [Hm | [Hm | Hm]]].
  - right.
    destruct (setup_link_result E) as [msg |] eqn:Hsetup.
    + left. exists (tunnel_of config (Some (forwarders_string config))),
        (ForInstructor GROUP_PORTS), msg.
      failed_setup Hm Hsetup.
    + right. exists (tunnel_of config (Some (forwarders_string config))),
        (ForInstructor GROUP_PORTS).
      unfold_to_heartbeat. rewrite Hm. cbn. rewrite Hsetup. cbn.
      finish_shape E config fuel Hm Hnosetup; close_shape Hm Hsetup.
  - destruct (Hip Hm) as [Hnone | [ip Hsome]].
    + left. split; [ exact Hm | split; [ exact Hnone | ] ].
      unfold_to_heartbeat. rewrite Hm. cbn. rewrite Hnone. cbn.
      unfold tunnel_of, bootstrapagent_of. rewrite Hm.
      split; [ reflexivity | now rewrite <- !app_assoc ].
    + right.
      destruct (setup_link_result E) as [msg |] eqn:Hsetup.
      * left. exists (tunnel_of config None),
          (TorInstructor GROUP_PORTS ip ip), msg.
        split; [ unfold fits; rewrite Hm; cbn; tauto | ].
        split; [ reflexivity | ].
        unfold_to_heartbeat. rewrite Hm. cbn. rewrite Hsome. cbn.
        rewrite Hsetup. cbn.
        unfold session_opening, tunnel_of, bootstrapagent_of. rewrite Hm.
        split; [ reflexivity | now rewrite <- !app_assoc ].
      * right. exists (tunnel_of config None),
          (TorInstructor GROUP_PORTS ip ip).
        unfold_to_heartbeat. rewrite Hm. cbn. rewrite Hsome. cbn.
        rewrite Hsetup. cbn.
        finish_shape E config fuel Hm Hnosetup; close_shape Hm Hsetup.
  - right.
    destruct (setup_link_result E) as [msg |] eqn:Hsetup.
    + left. exists (tunnel_of config None), (FileInstructor GROUP_PORTS), msg.
      failed_setup Hm Hsetup.
    + right. exists (tunnel_of config None), (FileInstructor GROUP_PORTS).
      unfold_to_heartbeat. rewrite Hm. cbn. rewrite Hsetup. cbn.
      finish_shape E config fuel Hm Hnosetup; close_shape Hm Hsetup.
  - right.
    destruct (setup_link_result E) as [msg |] eqn:Hsetup.
    + left. exists (tunnel_of config None),
        (InteractiveInstructor GROUP_PORTS), msg.
      failed_setup Hm Hsetup.
    + right. exists (tunnel_of config None),
        (InteractiveInstructor GROUP_PORTS).
      unfold_to_heartbeat. rewrite Hm. cbn. rewrite Hsetup. cbn.
      finish_shape E config fuel Hm Hnosetup; close_shape Hm Hsetup.
Qed.

(** ** Every run of [main] *)

Lemma forallb_existsb (P Q : event -> bool) (l : list event) :
  forallb P l = true -> existsb Q l = true ->
  exists e, P e = true /\ Q e = true.
Proof.
  intros HP HQ. apply existsb_exists in HQ. destruct HQ as [e [Hin He]].
  rewrite forallb_forall in HP. exists e. auto.
Qed.

Lemma forallb_none (P Q : event -> bool) (l : list event) :
  (forall e, P e = true -> Q e = false) ->
  forallb P l = true -> existsb Q l = false.
Proof.
  intros H HP. induction l as [| e l IH]; [ reflexivity | ].
  cbn in *. apply andb_true_iff in HP. destruct HP as [He Hl].
  rewrite (H e He), IH; auto.
Qed.

Lemma forallb_filter_nil (P Q : event -> bool) (l : list event) :
  (forall e, P e = true -> Q e = false) ->
  forallb P l = true -> filter Q l = [].
Proof.
  intros H HP. induction l as [| e l IH]; [ reflexivity | ].
  cbn in *. apply andb_true_iff in HP. destruct HP as [He Hl].
  rewrite (H e He), IH; auto.
Qed.

Lemma inner_allowed_no_scope (m : string) (e : event) :
  inner_allowed m e = true -> scope_event e = false.
Proof. destruct e; cbn; auto; discriminate. Qed.

Lemma mode_record_no_scope (config : Configuration) :
  filter scope_event (mode_record config) = [].
Proof. unfold mode_record. destruct (str_in _ _); reflexivity. Qed.

(** X1.  On every run of [main], whatever the command line, the loader,
    the set-up, the input and the interrupts are, the scope events of
    the trace are one of: none; the state manager entered and exited;
    the state manager entered, the heartbeat entered on port 33193, the
    heartbeat exited, the state manager exited.  While the run is still
    going on (the bound on the loops is used up) they are none or the
    two entries.  So a scope that was entered is left exactly once, the
    inner one first, however [main] ends. *)
Theorem main_scopes_nested
    (E : Env) (fuel : nat) (input : list stdin_event) (intr : option nat) :
  let r := main E fuel (initial_state input intr) in
  let scopes := filter scope_event (trace (snd r)) in
  match fst r with
  | OutOfFuel =>
      scopes = [] \/
      scopes = [EvStateManagerEnter; EvHeartbeatEnter 33193]
  | _ =>
      scopes = [] \/
      scopes = [EvStateManagerEnter; EvStateManagerExit] \/
      scopes = [EvStateManagerEnter; EvHeartbeatEnter 33193;
                EvHeartbeatExit; EvStateManagerExit]
  end.
Proof.
  cbv zeta.
  destruct (main_outline E fuel (initial_state input intr))
    as [(code & _ & ->) | [-> | (level & path & _ & _ & Hload)]].
  - now left.
  - now left.
  - destruct Hload as [[_ ->] | [(e & _ & _ & ->) | [[_ ->] | (config & _ & ->)]]];
      try now left.
    set (s1 := log_events (install_record level :: mode_record config)
                 (initial_state input intr)).
    assert (Hs1 : filter scope_event (trace s1) = []).
    { unfold s1. cbn. apply mode_record_no_scope. }
    destruct (guarded_session_shape E config fuel s1)
      as [(_ & -> & ->) | [(_ & _ & -> & ->) |
          [(tn & ins & msg & _ & _ & -> & ->) |
           (tn & ins & evs & _ & _ & HQ & Hr & ->)]]];
      rewrite !filter_app, ?Hs1; cbn.
    + right. now left.
    + right. now left.
    + right. now left.
    + rewrite (forallb_filter_nil _ _ _ (inner_allowed_no_scope _) HQ).
      destruct (fst (guarded_session E config fuel s1)) as [[] | e |]; cbn.
      * contradiction.
      * right. now right.
      * now right.
Qed.



Lemma upper_of_choice (level : string) :
  In level log_level_choices -> In (upper level) upper_levels.
Proof.
  unfold log_level_choices, upper_levels. cbn.
  intros [<- | [<- | [<- | [<- | [<- | []]]]]]; cbn; tauto.
Qed.

Lemma allowed_no_install (m : string) (e : event) :
  allowed m e || is_error_log e = true -> is_install e = false.
Proof. destruct e; cbn; auto; discriminate. Qed.

Lemma mode_record_no_install (config : Configuration) :
  existsb is_install (mode_record config) = false.
Proof. unfold mode_record. destruct (str_in _ _); reflexivity. Qed.

(** X3.  On every run the trace is empty (the parser has ended the
    process, or the level has no [upper]) or starts with the call of
    [coloredlogs.install], whose level is one of [DEBUG], [INFO],
    [WARNING], [ERROR], [CRITICAL]; no second call follows. *)
Theorem coloredlogs_installed_first_and_once
    (E : Env) (fuel : nat) (input : list stdin_event) (intr : option nat) :
  let t := trace (snd (main E fuel (initial_state input intr))) in
  t = [] \/
  exists level rest,
    In level upper_levels /\
    t = EvColoredlogsInstall coloredlogs_format level :: rest /\
    existsb is_install rest = false.
Proof.
  cbv zeta.
  destruct (main_outline E fuel (initial_state input intr))
    as [(code & _ & ->) | [-> | (level & path & _ & Hlevel & Hload)]];
    try now left.
  right. exists (upper level).
  pose proof (upper_of_choice level Hlevel) as Hup.
  destruct Hload
    as [[_ ->] | [(e & _ & _ & ->) | [[_ ->] | (config & _ & ->)]]];
    try solve [ exists []; cbn; auto ].
  destruct (guarded_session_spec E config fuel
              (log_events (install_record level :: mode_record config)
                 (initial_state input intr)))
    as (evs & -> & HQ & _).
  exists (mode_record config ++ evs). cbn.
  split; [ exact Hup | split; [ reflexivity | ] ].
  rewrite existsb_app, mode_record_no_install. cbn.
  eapply forallb_none; [ | exact HQ ].
  intros e. apply allowed_no_install.
Qed.



Lemma mode_record_plain (config : Configuration) (P : event -> bool) :
  (forall msg args, P (EvLog INFO msg args) = false) ->
  existsb P (mode_record config) = false.
Proof.
  intros H. unfold mode_record. destruct (str_in _ _); cbn; [ | reflexivity ].
  now rewrite H.
Qed.

(** X5.  The effects of a run belong to the mode of its configuration:
    a trace with a [transfer] is a run of FILE mode, one with a prompt,
    an [exec_command] or a [print] is a run of INTERACTIVE mode, and one
    with a [start_application], a [sleep] or a [terminate] is a run of
    FOR or TOR mode. *)
Theorem main_effects_belong_to_mode
    (E : Env) (fuel : nat) (level : string) (path : Argparse.pyval)
    (config : Configuration) (input : list stdin_event) (intr : option nat) :
  parsed_arguments E level path ->
  load_configuration E path = Ret config ->
  let t := trace (snd (main E fuel (initial_state input intr))) in
  (existsb is_transfer t = true -> mode config = "FILE") /\
  (existsb is_dialogue t = true -> mode config = "INTERACTIVE") /\
  (existsb launch_or_idle t = true ->
   mode config = "FOR" \/ mode config = "TOR").
Proof.
  intros Hparsed Hload. cbv zeta.
  rewrite (main_loaded E fuel level path config _ Hparsed Hload).
  destruct (guarded_session_spec E config fuel
              (log_events (install_record level :: mode_record config)
                 (initial_state input intr)))
    as (evs & -> & HQ & _).
  cbn [log_events trace initial_state app].
  assert (Hsplit : forall P,
             P (install_record level) = false ->
             (forall msg args, P (EvLog INFO msg args) = false) ->
             existsb P ((install_record level :: mode_record config) ++ evs)
             = true ->
             exists e, (allowed (mode config) e || is_error_log e) = true /\
                       P e = true).
  { intros P Hi Hlog H. cbn in H. rewrite Hi, existsb_app in H.
    rewrite (mode_record_plain config P Hlog) in H. cbn in H.
    exact (forallb_existsb _ _ _ HQ H). }
  repeat split; intros H;
    apply Hsplit in H; try reflexivity;
    destruct H as (e & Ha & He);
    destruct e as [| [] | | | | | | | | | | | | | | | | | | |];
    try discriminate He; cbn in Ha;
    rewrite ?orb_false_r in Ha.
  - now apply String.eqb_eq.
  - now apply String.eqb_eq.
  - now apply String.eqb_eq.
  - now apply String.eqb_eq.
  - apply orb_true_iff in Ha. destruct Ha as [Ha | Ha];
      apply String.eqb_eq in Ha; auto.
  - apply orb_true_iff in Ha. destruct Ha as [Ha | Ha];
      apply String.eqb_eq in Ha; auto.
  - apply orb_true_iff in Ha. destruct Ha as [Ha | Ha];
      apply String.eqb_eq in Ha; auto.
  - discriminate Ha.
Qed.

Lemma main_effects_belong_to_mode_witness :
  let t := trace (snd (main (example_env []
                               (Ret (example_configuration "FILE" None)) None)
                         1 (initial_state [] None))) in
  (existsb is_transfer t = true ->
   mode (example_configuration "FILE" None) = "FILE") /\
  (existsb is_dialogue t = true ->
   mode (example_configuration "FILE" None) = "INTERACTIVE") /\
  (existsb launch_or_idle t = true ->
   mode (example_configuration "FILE" None) = "FOR" \/
   mode (example_configuration "FILE" None) = "TOR").
Proof.
  apply (main_effects_belong_to_mode
           (example_env [] (Ret (example_configuration "FILE" None)) None) 1
           "info" (Argparse.PyStr EmptyString)
           (example_configuration "FILE" None) [] None).
  - eexists. repeat split; reflexivity.
  - reflexivity.
Defined.

(** ** How a session ends *)

Lemma inner_allowed_no_setup_link (m : string) (e : event) :
  inner_allowed m e = true -> is_setup_link e = false.
Proof. destruct e; cbn; auto; discriminate. Qed.

(** X6.  A run that calls [setup_link] does so once, after the
    configuration file for ssh is written and the four objects are
    constructed, and with exactly these objects: a transfer agent, the
    tunnel of the mode (with the forwarders only in FOR mode), its
    bootstrap agent and the instructor whose variant is the mode, which
    is one of the four; [debug] is [False]. *)
Theorem setup_link_gets_constructed_objects
    (E : Env) (fuel : nat) (level : string) (path : Argparse.pyval)
    (config : Configuration) (input : list stdin_event) (intr : option nat) :
  parsed_arguments E level path ->
  load_configuration E path = Ret config ->
  existsb is_setup_link
    (trace (snd (main E fuel (initial_state input intr)))) = true ->
  exists tn ins rest,
    fits config tn ins /\
    trace (snd (main E fuel (initial_state input intr))) =
      install_record level :: mode_record config ++
      session_opening config tn ins ++ rest /\
    existsb is_setup_link rest = false.
Proof.
  intros Hparsed Hload.
  rewrite (main_loaded E fuel level path config _ Hparsed Hload).
  set (s1 := log_events (install_record level :: mode_record config)
               (initial_state input intr)).
  assert (Hs1 : existsb is_setup_link (trace s1) = false).
  { unfold s1. cbn. now apply mode_record_plain. }
  assert (Ht1 : trace s1 = install_record level :: mode_record config)
    by reflexivity.
  destruct (guarded_session_shape E config fuel s1)
    as [(_ & _ & ->) | [(_ & _ & _ & ->) |
        [(tn & ins & msg & Hfits & _ & _ & ->) |
         (tn & ins & evs & Hfits & _ & HQ & _ & ->)]]].
  - rewrite existsb_app, Hs1. discriminate.
  - rewrite existsb_app, Hs1. discriminate.
  - intros _. exists tn, ins, [EvStateManagerExit; EvLog ERROR msg []].
    rewrite Ht1. split; [ exact Hfits | split; reflexivity ].
  - intros _. eexists tn, ins, _. rewrite Ht1.
    split; [ exact Hfits | split; [ reflexivity | ] ].
    cbn. rewrite existsb_app.
    rewrite (forallb_none _ _ _ (inner_allowed_no_setup_link _) HQ).
    destruct (fst (guarded_session E config fuel s1)) as [[] | e |];
      reflexivity.
Qed.

Lemma setup_link_gets_constructed_objects_witness :
  exists tn ins rest,
    fits (example_configuration "FILE" None) tn ins /\
    trace (snd (main (example_env [] (Ret (example_configuration "FILE" None))
                        (Some "no route")) 1 (initial_state [] None))) =
      install_record "info" :: mode_record (example_configuration "FILE" None)
      ++ session_opening (example_configuration "FILE" None) tn ins ++ rest /\
    existsb is_setup_link rest = false.
Proof.
  apply (setup_link_gets_constructed_objects
           (example_env [] (Ret (example_configuration "FILE" None))
              (Some "no route")) 1 "info" (Argparse.PyStr EmptyString)
           (example_configuration "FILE" None) [] None).
  - eexists. repeat split; reflexivity.
  - reflexivity.
  - reflexivity.
Defined.

(** Without interrupt a sleep loop goes on for as long as it is
    observed. *)
Lemma sleep_loop_forever (seconds : Z) (fuel : nat) :
  forall s,
    interrupt_after s = None ->
    while_true fuel (sleep seconds) s =
      (OutOfFuel,
       {| trace := trace s ++ repeat (EvSleep seconds) fuel;
          stdin := stdin s; interrupt_after := None |}).
Proof.
  induction fuel as [| fuel IH]; intros s Hs.
  - cbn. rewrite app_nil_r, <- Hs. now destruct s.
  - cbn [while_true]. unfold bind at 1. unfold sleep at 1. rewrite Hs.
    cbn. rewrite IH by (cbn; exact Hs). cbn. now rewrite <- app_assoc.
Qed.

(** X7.  FOR and TOR mode without application (none, or an empty one)
    and without interrupt do not end: for every bound on the loops the
    run is still going on, it has slept in ticks of one second as often
    as the bound allows after the two records of the mode, both scopes
    are still open and standard input is untouched. *)
Theorem persistent_mode_idles_until_interrupted
    (E : Env) (fuel : nat) (level : string) (path : Argparse.pyval)
    (config : Configuration) (ip : string) (input : list stdin_event) :
  parsed_arguments E level path ->
  load_configuration E path = Ret config ->
  mode config = "FOR" \/
  (mode config = "TOR" /\ dict_get (destination config) "host_ip" = Some ip) ->
  setup_link_result E = None ->
  truthy (application config) = None ->
  main E fuel (initial_state input None) =
    (OutOfFuel,
     {| trace := opening level config (persistent_tunnel config)
                   (persistent_instructor config ip) ++
                 ready config ++ repeat (EvSleep 1) fuel;
        stdin := input; interrupt_after := None |}).
Proof.
  intros Hparsed Hload Hmode Hsetup Happ.
  start_main Hparsed. rewrite Hload. cbn.
  destruct Hmode as [Hm | [Hm Hip]]; rewrite Hm; cbn;
    unfold_session; rewrite Hm; cbn; try rewrite Hip; cbn;
    rewrite Hsetup; cbn; rewrite Happ; cbn;
    rewrite idle_loop_is_sleep_loop;
    (rewrite (sleep_loop_forever 1 fuel) by reflexivity); cbn;
    unfold opening, persistent_tunnel, persistent_instructor, ready,
      tunnel_of, bootstrapagent_of, transferagent_of;
    rewrite Hm; cbn; reflexivity.
Qed.

Lemma persistent_mode_idles_until_interrupted_witness :
  fst (main (example_env [] (Ret (example_configuration "FOR" (Some [])))
               None) 7 (initial_state [] None)) = OutOfFuel.
Proof.
  apply (f_equal fst
           (persistent_mode_idles_until_interrupted
              (example_env [] (Ret (example_configuration "FOR" (Some [])))
                 None) 7 "info" (Argparse.PyStr EmptyString)
              (example_configuration "FOR" (Some [])) EmptyString []
              ltac:(eexists; repeat split; reflexivity)
              eq_refl (or_introl eq_refl) eq_refl eq_refl)).
Defined.

Lemma interactive_loop_eof (E : Env) (l : Locals) (ports : dict Z)
    (commands texts : list str) (fuel : nat) (s : State) :
  assistant l = Some (InteractiveInstructor ports) ->
  responses E commands texts ->
  stdin s = map Line commands ->
  length commands < fuel ->
  interactive_loop E l fuel s =
    (Raise EOFError,
     {| trace := trace s ++ dialogues commands texts ++
                 [EvInput "enter command: "];
        stdin := []; interrupt_after := interrupt_after s |}).
Proof.
  intros Ha Hall Hs Hlt.
  replace fuel with (length commands + S (fuel - length commands - 1)) by lia.
  unfold interactive_loop, try_except.
  rewrite (interactive_lines E l ports commands texts Ha Hall _ [] s)
    by now rewrite app_nil_r.
  cbn [while_true]. unfold bind at 1. unfold interactive_body at 1.
  unfold bind at 1. unfold input, bind, emit. cbn.
  now rewrite <- app_assoc.
Qed.

Lemma interactive_loop_undecodable (E : Env) (l : Locals) (ports : dict Z)
    (commands texts : list str) (command : str) (fuel : nat)
    (rest : list stdin_event) (s : State) :
  assistant l = Some (InteractiveInstructor ports) ->
  responses E commands texts ->
  utf8_decode (exec_command_response E command) = None ->
  stdin s = map Line commands ++ Line command :: rest ->
  length commands < fuel ->
  interactive_loop E l fuel s =
    (Raise UnicodeDecodeError,
     {| trace := trace s ++ dialogues commands texts ++
                 [EvInput "enter command: "; EvExecCommand command];
        stdin := rest; interrupt_after := interrupt_after s |}).
Proof.
  intros Ha Hall Hbad Hs Hlt.
  replace fuel with (length commands + S (fuel - length commands - 1)) by lia.
  unfold interactive_loop, try_except.
  rewrite (interactive_lines E l ports commands texts Ha Hall _
             (Line command :: rest) s Hs).
  cbn [while_true]. unfold bind at 1.
  rewrite (interactive_body_undecodable E l ports command rest
             {| trace := trace s ++ dialogues commands texts;
                stdin := Line command :: rest;
                interrupt_after := interrupt_after s |} Ha eq_refl Hbad).
  cbn. now rewrite <- app_assoc.
Qed.

(** X8.  When standard input ends in INTERACTIVE mode, after any number
    of answered commands, the next prompt raises [EOFError]; only
    [KeyboardInterrupt] is handled there, so the exception leaves
    [main] through both scopes, which are exited, and the process ends
    with status 1. *)
Theorem interactive_end_of_input_raises
    (E : Env) (fuel : nat) (level : string) (path : Argparse.pyval)
    (config : Configuration) (commands texts : list str) (intr : option nat) :
  parsed_arguments E level path ->
  load_configuration E path = Ret config ->
  mode config = "INTERACTIVE" ->
  setup_link_result E = None ->
  responses E commands texts ->
  length commands < fuel ->
  let r := main E fuel (initial_state (map Line commands) intr) in
  r = (Raise EOFError,
       {| trace := opening level config (tunnel_of config None)
                     (InteractiveInstructor GROUP_PORTS) ++
                   interactive_warnings ++
                   dialogues commands texts ++
                   [EvInput "enter command: "; EvHeartbeatExit;
                    EvStateManagerExit];
          stdin := []; interrupt_after := intr |}) /\
  exit_status (fst r) = Some 1%Z.
Proof.
  intros Hparsed Hload Hm Hsetup Hall Hlt. cbv zeta.
  assert (Hrun : main E fuel (initial_state (map Line commands) intr) =
    (Raise EOFError,
       {| trace := opening level config (tunnel_of config None)
                     (InteractiveInstructor GROUP_PORTS) ++
                   interactive_warnings ++
                   dialogues commands texts ++
                   [EvInput "enter command: "; EvHeartbeatExit;
                    EvStateManagerExit];
          stdin := []; interrupt_after := intr |})).
  { start_main Hparsed. rewrite Hload. cbn. rewrite Hm. cbn.
    unfold_session. rewrite Hm, Hsetup. cbn.
    erewrite interactive_loop_eof;
      [ | reflexivity | exact Hall | reflexivity | exact Hlt ].
    cbn. unfold opening, tunnel_of, bootstrapagent_of, transferagent_of.
    rewrite Hm. cbn. now rewrite <- !app_assoc. }
  rewrite Hrun. split; reflexivity.
Qed.

Lemma interactive_end_of_input_raises_witness :
  fst (main (example_env [] (Ret (example_configuration "INTERACTIVE" None))
               None) 2 (initial_state [Line (ascii_str "ls")] None)) =
    Raise EOFError.
Proof.
  apply (f_equal fst
           (proj1 (interactive_end_of_input_raises
                     (example_env []
                        (Ret (example_configuration "INTERACTIVE" None)) None)
                     2 "info" (Argparse.PyStr EmptyString)
                     (example_configuration "INTERACTIVE" None)
                     [ascii_str "ls"] [[104; 105; 10]%N] None
                     ltac:(eexists; repeat split; reflexivity)
                     eq_refl eq_refl eq_refl
                     ltac:(constructor; [ reflexivity | constructor ])
                     ltac:(simpl; lia)))).
Defined.

(** X9.  A response that is not UTF-8 ends an INTERACTIVE session: the
    command has been sent, nothing of the response is printed,
    [UnicodeDecodeError] leaves [main] through both scopes, and what is
    left of standard input is not read. *)
Theorem interactive_undecodable_response_raises
    (E : Env) (fuel : nat) (level : string) (path : Argparse.pyval)
    (config : Configuration) (commands texts : list str) (command : str)
    (rest : list stdin_event) (intr : option nat) :
  parsed_arguments E level path ->
  load_configuration E path = Ret config ->
  mode config = "INTERACTIVE" ->
  setup_link_result E = None ->
  responses E commands texts ->
  utf8_decode (exec_command_response E command) = None ->
  length commands < fuel ->
  main E fuel
    (initial_state (map Line commands ++ Line command :: rest) intr) =
    (Raise UnicodeDecodeError,
     {| trace := opening level config (tunnel_of config None)
                   (InteractiveInstructor GROUP_PORTS) ++
                 interactive_warnings ++
                 dialogues commands texts ++
                 [EvInput "enter command: "; EvExecCommand command;
                  EvHeartbeatExit; EvStateManagerExit];
        stdin := rest; interrupt_after := intr |}).
Proof.
  intros Hparsed Hload Hm Hsetup Hall Hbad Hlt.
  start_main Hparsed. rewrite Hload. cbn. rewrite Hm. cbn.
  unfold_session. rewrite Hm, Hsetup. cbn.
  erewrite interactive_loop_undecodable;
    [ | reflexivity | exact Hall | exact Hbad | reflexivity | exact Hlt ].
  cbn. unfold opening, tunnel_of, bootstrapagent_of, transferagent_of.
  rewrite Hm. cbn. now rewrite <- !app_assoc.
Qed.

Lemma interactive_undecodable_response_raises_witness :
  fst (main garbled_env 1 (initial_state [Line (ascii_str "ls"); CtrlC] None)) =
    Raise UnicodeDecodeError.
Proof.
  apply (f_equal fst
           (interactive_undecodable_response_raises garbled_env 1 "info"
              (Argparse.PyStr EmptyString)
              (example_configuration "INTERACTIVE" None)
              [] [] (ascii_str "ls") [CtrlC] None
              ltac:(eexists; repeat split; reflexivity)
              eq_refl eq_refl eq_refl
              ltac:(constructor) eq_refl ltac:(simpl; lia))).
Defined.

(** X10.  In TOR mode a destination without [host_ip] raises
    [KeyError('host_ip')] when the instructor is to be constructed: the
    transfer agent, the tunnel and the bootstrap agent exist by then,
    no instructor is constructed and [setup_link] is not called; the
    state-manager scope is exited and the process ends with status 1. *)
Theorem tor_without_host_ip_raises_key_error
    (E : Env) (fuel : nat) (level : string) (path : Argparse.pyval)
    (config : Configuration) (input : list stdin_event) (intr : option nat) :
  parsed_arguments E level path ->
  load_configuration E path = Ret config ->
  mode config = "TOR" ->
  dict_get (destination config) "host_ip" = None ->
  let r := main E fuel (initial_state input intr) in
  r = (Raise (KeyError "host_ip"),
       {| trace := [EvColoredlogsInstall coloredlogs_format (upper level);
                    EvLog INFO "mode TOR enabled" [];
                    EvStateManagerEnter;
                    EvWriteSshConfigFile LOCAL_PATH_SSH_CFG (gateways config)
                      (destination config);
                    EvNewTransferAgent (transferagent_of config);
                    EvNewTunnel (tunnel_of config None);
                    EvNewBootstrapAgent
                      (bootstrapagent_of (tunnel_of config None));
                    EvStateManagerExit];
          stdin := input; interrupt_after := intr |}) /\
  exit_status (fst r) = Some 1%Z.
Proof.
  intros Hparsed Hload Hm Hip. cbv zeta.
  match goal with |- ?r = ?v /\ _ => assert (Hrun : r = v) end.
  { start_main Hparsed. rewrite Hload. cbn. rewrite Hm. cbn.
    unfold_session. rewrite Hm. cbn. rewrite Hip. cbn.
    unfold tunnel_of, bootstrapagent_of, transferagent_of. rewrite Hm.
    reflexivity. }
  rewrite Hrun. split; reflexivity.
Qed.

Lemma tor_without_host_ip_raises_key_error_witness :
  exit_status (fst (main (example_env [] (Ret example_without_host_ip) None)
                      1 (initial_state [] None))) = Some 1%Z.
Proof.
  apply (proj2 (tor_without_host_ip_raises_key_error
                  (example_env [] (Ret example_without_host_ip) None) 1
                  "info" (Argparse.PyStr EmptyString)
                  example_without_host_ip [] None
                  ltac:(eexists; repeat split; reflexivity)
                  eq_refl eq_refl eq_refl)).
Defined.

(** X11.  In FOR and TOR mode an application entry that is not empty
    but lacks [binary_name], or has it and lacks [binary_location],
    raises [KeyError] for the first key that is missing, after the
    record "starting application..." and before anything is started:
    both scopes are exited and the process ends with status 1. *)
Theorem application_without_key_raises_key_error
    (E : Env) (fuel : nat) (level : string) (path : Argparse.pyval)
    (config : Configuration) (ip : string) (app : dict string) (key : string)
    (input : list stdin_event) (intr : option nat) :
  parsed_arguments E level path ->
  load_configuration E path = Ret config ->
  mode config = "FOR" \/
  (mode config = "TOR" /\ dict_get (destination config) "host_ip" = Some ip) ->
  setup_link_result E = None ->
  truthy (application config) = Some app ->
  missing_key app = Some key ->
  let r := main E fuel (initial_state input intr) in
  r = (Raise (KeyError key),
       {| trace := opening level config (persistent_tunnel config)
                     (persistent_instructor config ip) ++
                   ready config ++
                   [EvLog INFO "starting application..." [];
                    EvHeartbeatExit; EvStateManagerExit];
          stdin := input; interrupt_after := intr |}) /\
  exit_status (fst r) = Some 1%Z.
Proof.
  intros Hparsed Hload Hmode Hsetup Happ Hkey. cbv zeta.
  match goal with |- ?r = ?v /\ _ => assert (Hrun : r = v) end.
  { unfold missing_key in Hkey.
    start_main Hparsed. rewrite Hload. cbn.
    destruct Hmode as [Hm | [Hm Hip]]; rewrite Hm; cbn;
      unfold_session; rewrite Hm; cbn; try rewrite Hip; cbn;
      rewrite Hsetup; cbn; rewrite Happ; cbn;
      (destruct (dict_get app "binary_name") as [bn |];
       [ destruct (dict_get app "binary_location") as [bl |];
         [ discriminate | ] | ]);
      injection Hkey as <-; cbn;
      unfold opening, persistent_tunnel, persistent_instructor, ready,
        tunnel_of, bootstrapagent_of, transferagent_of;
      rewrite Hm; cbn; reflexivity. }
  rewrite Hrun. split; reflexivity.
Qed.

Lemma application_without_key_raises_key_error_witness :
  fst (main (example_env []
               (Ret (example_configuration "FOR"
                       (Some [("binary_name", "firefox")]))) None)
         1 (initial_state [] None)) =
    Raise (KeyError "binary_location").
Proof.
  apply (f_equal fst
           (proj1 (application_without_key_raises_key_error
                     (example_env []
                        (Ret (example_configuration "FOR"
                                (Some [("binary_name", "firefox")]))) None)
                     1 "info" (Argparse.PyStr EmptyString)
                     (example_configuration "FOR"
                        (Some [("binary_name", "firefox")]))
                     EmptyString [("binary_name", "firefox")]
                     "binary_location" [] None
                     ltac:(eexists; repeat split; reflexivity)
                     eq_refl (or_introl eq_refl) eq_refl eq_refl eq_refl))).
Defined.

(** X12.  A configuration whose mode is none of the four logs no mode,
    constructs the transfer agent only, and fails at the call of
    [setup_link], where the local [tunnel] is read and has no value:
    [UnboundLocalError] leaves [main] through the state-manager scope,
    the process ends with status 1 and standard input is untouched. *)
Theorem unknown_mode_raises_unbound_local
    (E : Env) (fuel : nat) (level : string) (path : Argparse.pyval)
    (config : Configuration) (input : list stdin_event) (intr : option nat) :
  parsed_arguments E level path ->
  load_configuration E path = Ret config ->
  ~ In (mode config) valid_modes ->
  let r := main E fuel (initial_state input intr) in
  fst r = Raise (UnboundLocalError "tunnel") /\
  exit_status (fst r) = Some 1%Z /\
  trace (snd r) =
    [EvColoredlogsInstall coloredlogs_format (upper level);
     EvStateManagerEnter;
     EvWriteSshConfigFile LOCAL_PATH_SSH_CFG (gateways config)
       (destination config);
     EvNewTransferAgent (transferagent_of config);
     EvStateManagerExit] /\
  stdin (snd r) = input.
Proof.
  intros Hparsed Hload Hmode. cbv zeta.
  rewrite (unknown_mode_run E fuel level path config input intr
             Hparsed Hload Hmode).
  repeat split; reflexivity.
Qed.

Lemma unknown_mode_raises_unbound_local_witness :
  fst (main (example_env [] (Ret (example_configuration "SOCKS" None)) None)
         1 (initial_state [] None)) =
    Raise (UnboundLocalError "tunnel").
Proof.
  apply (proj1 (unknown_mode_raises_unbound_local
                  (example_env [] (Ret (example_configuration "SOCKS" None))
                     None)
                  1 "info" (Argparse.PyStr EmptyString)
                  (example_configuration "SOCKS" None) [] None
                  ltac:(eexists; repeat split; reflexivity)
                  eq_refl
                  ltac:(cbn; intros [H | [H | [H | [H | []]]]];
                        discriminate))).
Defined.

(** X13.  [parse_config_file] handles [InvalidConfigurationFile] only:
    any other exception of the loader leaves [main] as it is, after the
    logging is installed and before any scope is opened. *)
Theorem loader_exception_escapes
    (E : Env) (fuel : nat) (level : string) (path : Argparse.pyval)
    (e : exn) (input : list stdin_event) (intr : option nat) :
  parsed_arguments E level path ->
  load_configuration E path = Raise e ->
  e <> InvalidConfigurationFile ->
  main E fuel (initial_state input intr) =
    (Raise e,
     {| trace := [EvColoredlogsInstall coloredlogs_format (upper level)];
        stdin := input; interrupt_after := intr |}).
Proof.
  intros Hparsed Hload He.
  start_main Hparsed. rewrite Hload.
  destruct e; try reflexivity. contradiction.
Qed.

Lemma loader_exception_escapes_witness :
  main (example_env [] (Raise (ExternalError "FileNotFoundError")) None) 1
    (initial_state [] None) =
    (Raise (ExternalError "FileNotFoundError"),
     {| trace := [EvColoredlogsInstall coloredlogs_format (upper "info")];
        stdin := []; interrupt_after := None |}).
Proof.
  apply (loader_exception_escapes
           (example_env [] (Raise (ExternalError "FileNotFoundError")) None)
           1 "info" (Argparse.PyStr EmptyString)
           (ExternalError "FileNotFoundError") [] None).
  - eexists. repeat split; reflexivity.
  - reflexivity.
  - discriminate.
Defined.




(** ** Command lines *)

Lemma value_not_dashdash (p : string) :
  starts_with_dash p = false -> (p =? "--") = false.
Proof.
  destruct p as [| c p]; [ reflexivity | ].
  unfold starts_with_dash, Argparse.is_prefix_char. intros H.
  cbn [String.eqb]. now rewrite H.
Qed.

Lemma parse_optional_value (osa : dict Argparse.Action) (p : string) :
  starts_with_dash p = false -> Argparse.parse_optional osa p = Ret None.
Proof.
  destruct p as [| c p]; [ reflexivity | ].
  unfold starts_with_dash. intros H.
  cbn [Argparse.parse_optional]. now rewrite H.
Qed.

Lemma choice_no_dash (v : string) :
  In v log_level_choices -> starts_with_dash v = false.
Proof.
  intros H. cbn in H.
  repeat (destruct H as [<- | H]; [ reflexivity | ]). contradiction.
Qed.

Lemma well_formed_value (nv : setting) :
  well_formed nv -> starts_with_dash (snd nv) = false.
Proof. intros [[_ H] | [_ H]]; [ exact H | now apply choice_no_dash ]. Qed.

Lemma classify_value (osa : dict Argparse.Action) (p : string)
    (rest : list string) :
  starts_with_dash p = false ->
  Argparse.classify osa (p :: rest) =
    match Argparse.classify osa rest with
    | Ret l => Ret ((p, Argparse.ClsA) :: l)
    | Raise e => Raise e
    | OutOfFuel => OutOfFuel
    end.
Proof.
  intros H. cbn [Argparse.classify].
  now rewrite (value_not_dashdash p H), (parse_optional_value osa p H).
Qed.

Lemma classify_name (name : string) (rest : list string) :
  In name (config_file_names ++ log_level_names) ->
  Argparse.classify (Argparse.option_string_actions the_parser) (name :: rest) =
    match Argparse.classify (Argparse.option_string_actions the_parser) rest with
    | Ret l =>
        Ret ((name, Argparse.ClsO (Some (action_named name), name, None)) :: l)
    | Raise e => Raise e
    | OutOfFuel => OutOfFuel
    end.
Proof.
  intros H. cbn in H.
  repeat (destruct H as [<- | H]; [ reflexivity | ]). contradiction.
Qed.

Lemma well_formed_name (nv : setting) :
  well_formed nv -> In (fst nv) (config_file_names ++ log_level_names).
Proof.
  intros [[H _] | [H _]]; apply in_or_app; [ now left | now right ].
Qed.

Lemma classify_settings (settings : list setting) (rest : list string) :
  Forall well_formed settings ->
  Argparse.classify (Argparse.option_string_actions the_parser) (command_line settings ++ rest) =
    match Argparse.classify (Argparse.option_string_actions the_parser) rest with
    | Ret l => Ret (tokens settings ++ l)
    | Raise e => Raise e
    | OutOfFuel => OutOfFuel
    end.
Proof.
  induction 1 as [| nv settings Hnv _ IH].
  - cbn. now destruct (Argparse.classify _ rest) as [l | e |].
  - cbn [command_line tokens flat_map app].
    change (flat_map (fun nv => [fst nv; snd nv]) settings)
      with (command_line settings).
    rewrite (classify_name _ _ (well_formed_name nv Hnv)).
    rewrite (classify_value _ _ _ (well_formed_value nv Hnv)).
    rewrite IH. now destruct (Argparse.classify _ rest) as [l | e |].
Qed.

Lemma consume_setting (nv : setting)
    (toks : list (string * Argparse.arg_class)) (path level : string)
    (extras : list string) :
  well_formed nv ->
  Argparse.consume (Argparse.option_string_actions the_parser)
    ((fst nv, Argparse.ClsO (Some (action_named (fst nv)), fst nv, None)) ::
     (snd nv, Argparse.ClsA) :: toks)
    (namespace_of path level) extras =
  Argparse.consume (Argparse.option_string_actions the_parser) toks
    (namespace_of
       (if str_in (fst nv) config_file_names then snd nv else path)
       (if str_in (fst nv) log_level_names then snd nv else level))
    extras.
Proof.
  destruct nv as [name v].
  intros [[Hn Hv] | [Hn Hv]]; cbn [fst snd] in *.
  - apply value_not_dashdash in Hv.
    cbn in Hn. destruct Hn as [<- | [<- | []]];
      cbn [Argparse.consume]; cbn -[Argparse.consume String.eqb];
      change (action_named _) with config_file_action;
      cbn -[Argparse.consume String.eqb];
      unfold Argparse.take_action, Argparse.get_values;
      cbn [Argparse.remove_first_dashdash]; rewrite Hv; reflexivity.
  - cbn in Hn, Hv.
    destruct Hn as [<- | [<- | []]];
      repeat (destruct Hv as [<- | Hv]; [ reflexivity | ]); contradiction.
Qed.

Lemma consume_settings (settings : list setting) :
  Forall well_formed settings ->
  forall (toks : list (string * Argparse.arg_class)) (path level : string)
         (extras : list string),
    Argparse.consume (Argparse.option_string_actions the_parser) (tokens settings ++ toks)
      (namespace_of path level) extras =
    Argparse.consume (Argparse.option_string_actions the_parser) toks
      (namespace_of (last_value config_file_names path settings)
                    (last_value log_level_names level settings))
      extras.
Proof.
  induction 1 as [| nv settings Hnv _ IH]; intros toks path level extras.
  - reflexivity.
  - cbn [tokens flat_map app].
    change (flat_map _ settings) with (tokens settings).
    rewrite (consume_setting nv _ path level extras Hnv).
    rewrite IH. reflexivity.
Qed.

(** X15.  A command line of options with their values as separate
    arguments, in any order and number, [--config-file] or [-c] with a
    value that does not start with a dash (the empty one too) and
    [--log-level] or [-L] with one of the five choices, is accepted:
    the path is the value of the last [--config-file]/[-c], or empty,
    and the level is the value of the last [--log-level]/[-L], or
    [info]. *)
Theorem get_arguments_last_setting_wins (E : Env) (settings : list setting) :
  Forall well_formed settings ->
  argv E = command_line settings ->
  parsed_arguments E
    (last_value log_level_names "info" settings)
    (Argparse.PyStr (last_value config_file_names EmptyString settings)).
Proof.
  intros Hwf Hargv.
  exists (namespace_of (last_value config_file_names EmptyString settings)
                       (last_value log_level_names "info" settings)).
  split; [ | split; reflexivity ].
  rewrite Hargv.
  change (get_arguments (command_line settings))
    with (Argparse.parse_args the_parser (command_line settings)).
  unfold Argparse.parse_args.
  rewrite <- (app_nil_r (command_line settings)).
  rewrite (classify_settings settings [] Hwf). cbn [Argparse.classify].
  change (Argparse.defaults the_parser [])
    with (namespace_of EmptyString "info").
  rewrite (consume_settings settings Hwf). reflexivity.
Qed.

Lemma get_arguments_last_setting_wins_witness :
  parsed_arguments
    (example_env ["-L"; "debug"; "--config-file"; "a.yml"; "-c"; "b.yml";
                  "--log-level"; "error"]
       (Ret (example_configuration "FILE" None)) None)
    "error" (Argparse.PyStr "b.yml").
Proof.
  apply (get_arguments_last_setting_wins
           (example_env ["-L"; "debug"; "--config-file"; "a.yml"; "-c"; "b.yml";
                         "--log-level"; "error"]
              (Ret (example_configuration "FILE" None)) None)
           [("-L", "debug"); ("--config-file", "a.yml"); ("-c", "b.yml");
            ("--log-level", "error")]).
  - repeat (apply Forall_cons;
            [ first [ solve [ left; split; [ cbn; auto 6 | reflexivity ] ]
                    | solve [ right; split; cbn; auto 8 ] ] | ]).
    apply Forall_nil.
  - reflexivity.
Defined.

Lemma In_str_in (x : string) (l : list string) : In x l -> str_in x l = true.
Proof.
  intros H. unfold str_in. apply existsb_exists. exists x.
  split; [ exact H | apply String.eqb_refl ].
Qed.

Lemma not_In_str_in (x : string) (l : list string) :
  ~ In x l -> str_in x l = false.
Proof.
  intros H. destruct (str_in x l) eqn:Hx; [ | reflexivity ].
  now apply str_in_In in Hx.
Qed.

(** How [parse_args] goes on after well-formed settings. *)
Lemma parse_args_after_settings (settings : list setting)
    (rest : list string) :
  Forall well_formed settings ->
  Argparse.parse_args the_parser (command_line settings ++ rest) =
    match Argparse.classify (Argparse.option_string_actions the_parser) rest with
    | Ret toks =>
        match Argparse.consume (Argparse.option_string_actions the_parser) toks
                (namespace_of
                   (last_value config_file_names EmptyString settings)
                   (last_value log_level_names "info" settings)) [] with
        | Ret (ns, []) => Ret ns
        | Ret (_, _ :: _) => Raise (SystemExit 2)
        | Raise e => Raise e
        | OutOfFuel => OutOfFuel
        end
    | Raise e => Raise e
    | OutOfFuel => OutOfFuel
    end.
Proof.
  intros Hwf. unfold Argparse.parse_args.
  rewrite (classify_settings settings rest Hwf).
  destruct (Argparse.classify _ rest) as [toks | e |]; try reflexivity.
  change (Argparse.defaults the_parser [])
    with (namespace_of EmptyString "info").
  now rewrite (consume_settings settings Hwf).
Qed.

(** X16.  A level outside the five choices, upper case ones and the
    empty one included, ends the process with status 2 before anything
    else happens, also after settings that are well formed. *)
Theorem invalid_log_level_exits_2 (E : Env) (fuel : nat)
    (settings : list setting) (name v : string) (s : State) :
  Forall well_formed settings ->
  In name log_level_names ->
  starts_with_dash v = false ->
  ~ In v log_level_choices ->
  argv E = command_line settings ++ [name; v] ->
  main E fuel s = (Raise (SystemExit 2), s).
Proof.
  intros Hwf Hname Hv Hnot Hargv.
  apply main_exits_with_get_arguments. rewrite Hargv.
  change (get_arguments (command_line settings ++ [name; v]))
    with (Argparse.parse_args the_parser (command_line settings ++ [name; v])).
  rewrite (parse_args_after_settings settings _ Hwf).
  rewrite (classify_name name [v]) by (apply in_or_app; now right).
  rewrite (classify_value _ v [] Hv). cbn [Argparse.classify].
  apply not_In_str_in in Hnot. apply value_not_dashdash in Hv.
  cbn in Hname. destruct Hname as [<- | [<- | []]];
    cbn [Argparse.consume]; cbn -[Argparse.consume String.eqb str_in];
    change (action_named _) with log_level_action;
    cbn -[Argparse.consume String.eqb str_in];
    unfold Argparse.take_action, Argparse.get_values;
    cbn [Argparse.remove_first_dashdash]; rewrite Hv;
    cbn -[str_in log_level_choices]; rewrite Hnot; reflexivity.
Qed.

Lemma invalid_log_level_exits_2_witness :
  main (example_env ["-c"; "a.yml"; "--log-level"; "INFO"]
          (Ret (example_configuration "FILE" None)) None) 1
    (initial_state [] None) =
    (Raise (SystemExit 2), initial_state [] None).
Proof.
  apply (invalid_log_level_exits_2
           (example_env ["-c"; "a.yml"; "--log-level"; "INFO"]
              (Ret (example_configuration "FILE" None)) None) 1
           [("-c", "a.yml")] "--log-level" "INFO" (initial_state [] None)).
  - constructor; [ left; split; [ cbn; auto | reflexivity ] | constructor ].
  - cbn. auto.
  - reflexivity.
  - cbn. intros [H | [H | [H | [H | [H | []]]]]]; discriminate.
  - reflexivity.
Defined.

Lemma consume_values (osa : dict Argparse.Action) (args : list string) :
  forall (ns : Argparse.Namespace) (extras : list string),
    Argparse.consume osa (map (fun a => (a, Argparse.ClsA)) args) ns extras =
      Ret (ns, extras ++ args).
Proof.
  induction args as [| a args IH]; intros ns extras; cbn.
  - now rewrite app_nil_r.
  - rewrite IH. now rewrite <- app_assoc.
Qed.

Lemma classify_values (osa : dict Argparse.Action) (args : list string) :
  Forall (fun a => starts_with_dash a = false) args ->
  Argparse.classify osa args = Ret (map (fun a => (a, Argparse.ClsA)) args).
Proof.
  induction 1 as [| a args Ha _ IH]; [ reflexivity | ].
  rewrite (classify_value osa a args Ha), IH. reflexivity.
Qed.

(** X17.  The parser has no positional arguments: arguments that are
    left after the settings and do not start with a dash end the
    process with status 2 before anything else happens. *)
Theorem positional_arguments_exit_2 (E : Env) (fuel : nat)
    (settings : list setting) (args : list string) (s : State) :
  Forall well_formed settings ->
  Forall (fun a => starts_with_dash a = false) args ->
  args <> [] ->
  argv E = command_line settings ++ args ->
  main E fuel s = (Raise (SystemExit 2), s).
Proof.
  intros Hwf Hargs Hne Hargv.
  apply main_exits_with_get_arguments. rewrite Hargv.
  change (get_arguments (command_line settings ++ args))
    with (Argparse.parse_args the_parser (command_line settings ++ args)).
  rewrite (parse_args_after_settings settings _ Hwf).
  rewrite (classify_values _ args Hargs), consume_values.
  destruct args; [ contradiction | reflexivity ].
Qed.

Lemma positional_arguments_exit_2_witness :
  main (example_env ["-L"; "debug"; "a.yml"]
          (Ret (example_configuration "FILE" None)) None) 1
    (initial_state [] None) =
    (Raise (SystemExit 2), initial_state [] None).
Proof.
  apply (positional_arguments_exit_2
           (example_env ["-L"; "debug"; "a.yml"]
              (Ret (example_configuration "FILE" None)) None) 1
           [("-L", "debug")] ["a.yml"] (initial_state [] None)).
  - constructor; [ right; split; cbn; auto | constructor ].
  - constructor; [ reflexivity | constructor ].
  - discriminate.
  - reflexivity.
Defined.



Lemma consume_explicit_store (osa : dict Argparse.Action)
    (a : Argparse.Action) (option_string explicit_arg : string)
    (next : option string) :
  Argparse.action a = Argparse.StoreAction ->
  Argparse.consume_explicit osa a option_string explicit_arg next =
    Ret ([(a, [explicit_arg])], false).
Proof. intros H. destruct explicit_arg; cbn; now rewrite H. Qed.

(** X19.  Attached with [=] to the long option, any path is stored as it
    is, one that starts with a dash too; the one exception is [--],
    which argparse strips. *)
Theorem config_file_equals_form_stores_any_path (E : Env)
    (settings : list setting) (p : string) :
  Forall well_formed settings ->
  p <> "--" ->
  argv E = command_line settings ++ [("--config-file=" ++ p)%string] ->
  parsed_arguments E (last_value log_level_names "info" settings)
    (Argparse.PyStr p).
Proof.
  intros Hwf Hp Hargv.
  exists (namespace_of p (last_value log_level_names "info" settings)).
  split; [ | split; reflexivity ].
  rewrite Hargv.
  change (get_arguments ?a) with (Argparse.parse_args the_parser a).
  rewrite (parse_args_after_settings settings _ Hwf).
  apply String.eqb_neq in Hp.
  cbn -[String.eqb]. cbn [String.eqb Ascii.eqb Bool.eqb].
  cbn -[String.eqb].
  rewrite consume_explicit_store by reflexivity.
  unfold Argparse.take_actions, Argparse.take_action, Argparse.get_values.
  cbn [Argparse.remove_first_dashdash]. rewrite Hp. reflexivity.
Qed.

Lemma config_file_equals_form_stores_any_path_witness :
  parsed_arguments
    (example_env ["-L"; "error"; "--config-file=-odd name.yml"]
       (Ret (example_configuration "FILE" None)) None)
    "error" (Argparse.PyStr "-odd name.yml").
Proof.
  apply (config_file_equals_form_stores_any_path
           (example_env ["-L"; "error"; "--config-file=-odd name.yml"]
              (Ret (example_configuration "FILE" None)) None)
           [("-L", "error")] "-odd name.yml").
  - constructor; [ right; split; cbn; auto 6 | constructor ].
  - discriminate.
  - reflexivity.
Defined.

(** ** Printing a response *)

(** X20.  One round of the interactive loop prints the whole response,
    line by line: what is printed are the lines with the prefix, the
    lines joined by newlines are the decoded response, there is one
    line more than the response has newlines, and no line holds a
    newline. *)
Theorem interactive_round_prints_whole_response
    (E : Env) (l : Locals) (ports : dict Z) (command text : str)
    (rest : list stdin_event) (s : State) :
  assistant l = Some (InteractiveInstructor ports) ->
  stdin s = Line command :: rest ->
  utf8_decode (exec_command_response E command) = Some text ->
  exists lines,
    printed (trace (snd (interactive_body E l s))) =
      printed (trace s) ++ map prefix_line lines /\
    join newline lines = text /\
    length lines = S (count_occ N.eq_dec text newline) /\
    Forall (fun line => ~ In newline line) lines.
Proof.
  intros Ha Hs Ht.
  rewrite (interactive_body_line E l ports command text rest s Ha Hs Ht).
  exists (split_on newline text). cbn [snd trace].
  split; [ | split; [ apply join_split_on
                    | split; [ apply split_on_length
                             | apply split_on_no_sep ] ] ].
  rewrite printed_app. f_equal. unfold dialogue. cbn [printed].
  apply (printed_prints prefix_line).
Qed.

Lemma interactive_round_prints_whole_response_witness :
  exists lines,
    printed (trace (snd (interactive_body
                           (example_env [] (Ret (example_configuration
                                                   "INTERACTIVE" None)) None)
                           {| tunnel := None; bootstrapagent := None;
                              assistant := Some (InteractiveInstructor
                                                   GROUP_PORTS) |}
                           (initial_state [Line (ascii_str "ls")] None)))) =
      printed [] ++ map prefix_line lines /\
    join newline lines = [104; 105; 10]%N /\
    length lines = S (count_occ N.eq_dec [104; 105; 10]%N newline) /\
    Forall (fun line => ~ In newline line) lines.
Proof.
  apply (interactive_round_prints_whole_response
           (example_env [] (Ret (example_configuration "INTERACTIVE" None))
              None)
           {| tunnel := None; bootstrapagent := None;
              assistant := Some (InteractiveInstructor GROUP_PORTS) |}
           GROUP_PORTS (ascii_str "ls") [104; 105; 10]%N []
           (initial_state [Line (ascii_str "ls")] None));
    reflexivity.
Defined.
